(** * binance-future-scan-web: the real-time pipeline and the chart engine

    A shallow embedding of
      - [src/services/websocket.ts] and [src/services/websocketClient.ts]
        (the two WebSocket services: connection state machine and message
        normalizer), and
      - the [SignalChart] component (symbol navigation, price scaling),
    followed by the properties of the specification that concern them.

    Conventions of the embedding.
      - A JavaScript object used as a record of optional callbacks is a
        finite map from property names to handlers; object spread
        [{...a, ...b}] is the union of the maps in which [b] wins.
      - A callback is opaque: invoking it appends one entry to a trace.
        Callbacks are taken to return normally and not to re-enter the
        service while they run.  [console.*] output is not recorded.
      - JavaScript numbers are IEEE 754 binary64 values ([PrimFloat]).
      - A function that can raise a [TypeError] returns an [option]. *)

From Stdlib Require Import ZArith Lia PrimFloat FloatAxioms SpecFloat FloatOps.
From stdpp Require Import base option list strings gmap.

Set Warnings "-register-all,-inexact-float".
Local Open Scope string_scope.
Local Open Scope nat_scope.
Local Open Scope list_scope.

(** ** Decoded JSON values *)

Module Js.

Inductive JsValue : Type :=
| JUndefined
| JNull
| JBool (b : bool)
| JNum (n : float)
| JStr (s : string)
| JArr (items : list JsValue)
| JObj (props : list (string * JsValue)).

(** ToBoolean. *)
Definition truthy (v : JsValue) : bool :=
  match v with
  | JUndefined | JNull => false
  | JBool b => b
  | JNum n => negb (PrimFloat.eqb n 0%float || PrimFloat.is_nan n)
  | JStr s => negb (String.eqb s "")
  | JArr _ | JObj _ => true
  end.

(** [a || b] *)
Definition or_else (a b : JsValue) : JsValue := if truthy a then a else b.

(** [Array.isArray(v)] *)
Definition isArray (v : JsValue) : bool :=
  match v with JArr _ => true | _ => false end.

Fixpoint assoc (k : string) (props : list (string * JsValue)) : JsValue :=
  match props with
  | [] => JUndefined
  | (k', v) :: rest => if String.eqb k k' then v else assoc k rest
  end.

(** [v.k]: raises on [null] and [undefined]; a primitive or an array has
    none of the property names the services read. *)
Definition get (k : string) (v : JsValue) : option JsValue :=
  match v with
  | JUndefined | JNull => None
  | JObj props => Some (assoc k props)
  | _ => Some JUndefined
  end.

(** [v?.k] *)
Definition get_opt (k : string) (v : JsValue) : JsValue :=
  match get k v with Some x => x | None => JUndefined end.

(** [k in v] for a decoded object; raises on a primitive. *)
Definition has (k : string) (v : JsValue) : option bool :=
  match v with
  | JObj props => Some (bool_decide (k ∈ props.*1))
  | JArr _ => Some false
  | _ => None
  end.

(** [s.includes(needle)] on strings. *)
Definition str_includes (needle s : string) : bool :=
  match String.index 0 needle s with Some _ => true | None => false end.

Definition is_str (s : string) (v : JsValue) : bool :=
  match v with JStr t => String.eqb s t | _ => false end.

(** [v?.includes(needle)]: [Some b] is the truth value of the result,
    [None] a [TypeError] ([includes] is not a function on numbers,
    booleans and decoded objects). *)
Definition includes_opt (needle : string) (v : JsValue) : option bool :=
  match v with
  | JUndefined | JNull => Some false
  | JStr s => Some (str_includes needle s)
  | JArr items => Some (existsb (is_str needle) items)
  | JBool _ | JNum _ | JObj _ => None
  end.

End Js.
Export Js.

(** ** Callback registrations and the trace of invocations *)

Inductive Handler : Type :=
| HUndefined            (* the property is present and holds [undefined] *)
| HFn (id : nat).       (* the property holds a function *)

#[global] Instance Handler_eq_dec : EqDecision Handler.
Proof. solve_decision. Defined.

Abbreviation Callbacks := (gmap string Handler).

(** One callback invocation: the property it was read from, the function,
    and the arguments. *)
Inductive Event : Type :=
| Invoke (key : string) (fn : nat) (args : list JsValue).

(** [{ ...old, ...new }] *)
Definition merge (old new : Callbacks) : Callbacks := new ∪ old.

(** [cbs.key?.(args)] *)
Definition invoke (cbs : Callbacks) (key : string) (args : list JsValue)
  : list Event :=
  match cbs !! key with
  | Some (HFn f) => [Invoke key f args]
  | _ => []
  end.

(** ** Message normalizer *)

Module Normalizer.

(** [message.event || message.type] *)
Definition messageTypeOf (message : JsValue) : option JsValue :=
  ev ← get "event" message;
  ty ← get "type" message;
  Some (or_else ev ty).

(** [WebSocketService.handleMessage] (account channel).  [None]: the
    body raised, which [onmessage] catches. *)
Definition handleMessage (cbs : Callbacks) (message : JsValue)
  : option (list Event) :=
  messageType ← messageTypeOf message;
  data ← get "data" message;
  if is_str "bot_status" messageType || is_str "status_update" messageType then
    Some (invoke cbs "onBotStatus" [data])
  else if is_str "balance" messageType then
    Some (invoke cbs "onBalance" [data])
  else if is_str "balance_update" messageType
          || is_str "account_update" messageType then
    match get_opt "balance" data with
    | JUndefined => Some (invoke cbs "onBalance" [data])
    | balance => Some (invoke cbs "onBalance" [balance])
    end
  else if is_str "positions" messageType then
    let positionsArray :=
      if isArray data then data
      else if truthy data then JArr [data] else JArr [] in
    Some (invoke cbs "onPositions" [positionsArray])
  else if is_str "position_update" messageType then
    let positionUpdateArray := if isArray data then data else JArr [data] in
    Some (invoke cbs "onPositions" [positionUpdateArray])
  else if is_str "income_history" messageType then
    let incomeArray := if isArray data then data else JArr [] in
    Some (invoke cbs "onIncomeHistory" [incomeArray])
  else if is_str "spot_orders" messageType then
    let spotOrdersArray := if isArray data then data else JArr [] in
    Some (invoke cbs "onSpotOrders" [spotOrdersArray])
  else if is_str "error" messageType then
    Some (invoke cbs "onError"
            [or_else (or_else (get_opt "message" data) data)
                     (JStr "Unknown error")])
  else
    hasBalance ← includes_opt "balance" messageType;
    if hasBalance : bool then Some (invoke cbs "onBalance" [data])
    else
      hasAccount ← includes_opt "account" messageType;
      if hasAccount : bool then Some (invoke cbs "onBalance" [data])
      else
        hasPosition ← includes_opt "position" messageType;
        if hasPosition : bool then
          Some (invoke cbs "onPositions"
                  [if isArray data then data else JArr [data]])
        else Some [].

(** [WebSocketClientService.handleMessage] (signal channel). *)
Definition handleClientMessage (cbs : Callbacks) (message : JsValue)
  : option (list Event) :=
  if isArray message then Some (invoke cbs "onScanSignal" [message])
  else
    ty ← get "type" message;
    if is_str "scan_signal" ty then
      hasData ← has "data" message;
      data ← get "data" message;
      if (hasData : bool) && isArray data
      then Some (invoke cbs "onScanSignal" [data])
      else Some []
    else if is_str "error" ty then
      data ← get "data" message;
      Some (invoke cbs "onError"
              [or_else (or_else (get_opt "message" data) data)
                       (JStr "Unknown error")])
    else Some [].

End Normalizer.

(** ** Transport connection manager

    [WebSocketService] and [WebSocketClientService] have the same fields and,
    up to logging, the same [connect], socket handlers, [disconnect] and
    [updateCallbacks]; they differ in [handleMessage].  One model serves
    both; the field [channel] says which service a state belongs to. *)

Module Conn.

Inductive Channel : Type := Account | Signal.

(** [WebSocket.readyState] *)
Inductive ReadyState : Type := CONNECTING | OPEN | CLOSING | CLOSED.

#[global] Instance ReadyState_eq_dec : EqDecision ReadyState.
Proof. solve_decision. Defined.

Definition maxReconnectAttempts : nat := 5.
Definition reconnectDelay : Z := 3000.

(** The private fields of a service.  A socket handle is the index of the
    socket in the list of all sockets constructed so far, so that two
    handles are the same reference exactly when they are equal. *)
Record Service : Type := mkService {
  ws : option nat;
  reconnectAttempts : nat;
  callbacks : Callbacks;
  isConnecting : bool;
  shouldReconnect : bool;
}.

(** A service together with the part of the browser it acts on. *)
Record World : Type := mkWorld {
  channel : Channel;
  svc : Service;
  sockets : list ReadyState;   (* every socket built by [new WebSocket] *)
  timers : list Z;             (* delays of the pending [setTimeout] calls *)
  token : option string;       (* [localStorage.getItem('auth_token')] *)
  ctorOk : bool;               (* building the URL and [new WebSocket(url)]
                                  do not raise *)
  trace : list Event;          (* callback invocations, oldest first *)
}.

Definition initService : Service :=
  mkService None 0 ∅ false true.

Definition init (ch : Channel) (tok : option string) : World :=
  mkWorld ch initService [] [] tok true [].

(** *** Field updates *)

Definition with_svc (f : Service → Service) (w : World) : World :=
  mkWorld (channel w) (f (svc w)) (sockets w) (timers w) (token w)
          (ctorOk w) (trace w).
Definition set_ws (v : option nat) (s : Service) : Service :=
  mkService v (reconnectAttempts s) (callbacks s) (isConnecting s)
            (shouldReconnect s).
Definition set_reconnectAttempts (n : nat) (s : Service) : Service :=
  mkService (ws s) n (callbacks s) (isConnecting s) (shouldReconnect s).
Definition set_callbacks (c : Callbacks) (s : Service) : Service :=
  mkService (ws s) (reconnectAttempts s) c (isConnecting s)
            (shouldReconnect s).
Definition set_isConnecting (b : bool) (s : Service) : Service :=
  mkService (ws s) (reconnectAttempts s) (callbacks s) b (shouldReconnect s).
Definition set_shouldReconnect (b : bool) (s : Service) : Service :=
  mkService (ws s) (reconnectAttempts s) (callbacks s) (isConnecting s) b.

Definition set_sockets (l : list ReadyState) (w : World) : World :=
  mkWorld (channel w) (svc w) l (timers w) (token w) (ctorOk w) (trace w).
Definition set_timers (l : list Z) (w : World) : World :=
  mkWorld (channel w) (svc w) (sockets w) l (token w) (ctorOk w) (trace w).

Definition set_token (t : option string) (w : World) : World :=
  mkWorld (channel w) (svc w) (sockets w) (timers w) t (ctorOk w) (trace w).
Definition set_ctorOk (b : bool) (w : World) : World :=
  mkWorld (channel w) (svc w) (sockets w) (timers w) (token w) b (trace w).
Definition emit (evs : list Event) (w : World) : World :=
  mkWorld (channel w) (svc w) (sockets w) (timers w) (token w) (ctorOk w)
          (trace w ++ evs).

(** [setTimeout(reconnectTimer, delay)] *)
Definition setTimeout (delay : Z) (w : World) : World :=
  set_timers (timers w ++ [delay]) w.

(** [this.callbacks.key?.(args)] *)
Definition call (key : string) (args : list JsValue) (w : World) : World :=
  emit (invoke (callbacks (svc w)) key args) w.

(** *** The browser's side of a socket *)

Definition readyState (w : World) (s : nat) : option ReadyState :=
  sockets w !! s.

Definition set_readyState (s : nat) (r : ReadyState) (w : World) : World :=
  set_sockets (<[s := r]> (sockets w)) w.

(** [socket.close()]: starts closing a connecting or open socket and does
    nothing on one that is closing or closed. *)
Definition ws_close (s : nat) (w : World) : World :=
  match readyState w s with
  | Some CONNECTING | Some OPEN => set_readyState s CLOSING w
  | _ => w
  end.

(** [new WebSocket(getWebSocketUrl())]: a fresh socket in state
    CONNECTING, or an exception ([None]). *)
Definition new_WebSocket (w : World) : option (nat * World) :=
  if ctorOk w
  then Some (length (sockets w), set_sockets (sockets w ++ [CONNECTING]) w)
  else None.

(** [!token] *)
Definition token_missing (t : option string) : bool :=
  match t with
  | None => true
  | Some s => String.eqb s ""
  end.

(** *** Methods of the service *)

(** [this.ws && this.ws.readyState === WebSocket.OPEN] *)
Definition isConnected (w : World) : bool :=
  match ws (svc w) with
  | Some s => bool_decide (readyState w s = Some OPEN)
  | None => false
  end.

Definition getIsConnecting (w : World) : bool :=
  isConnecting (svc w)
  || match ws (svc w) with
     | Some s => bool_decide (readyState w s = Some CONNECTING)
     | None => false
     end.

(** Neither connected nor connecting: both guards of [connect] fail. *)
Definition Idle (w : World) : Prop :=
  isConnected w = false ∧ isConnecting (svc w) = false.

Definition updateCallbacks (cbs : Callbacks) (w : World) : World :=
  with_svc (λ s, set_callbacks (merge (callbacks s) cbs) s) w.

(** The [try] block of [connect]; [None] when it raises. *)
Definition connect_try (w : World) : option World :=
  if token_missing (token w) then
    let w := with_svc (set_isConnecting false) w in
    Some (call "onError"
            [JStr "No authentication token found. Please login again."] w)
  else
    '(wsRef, w) ← new_WebSocket w;
    Some (with_svc (set_ws (Some wsRef)) w).

(** [connect(callbacks)].  The body has no [await], so it runs to its end
    when called; the handlers it installs on the new socket are
    [onopen], [onerror], [onclose] and [onmessage] below, with [wsRef] the
    handle of that socket. *)
Definition connect (cbs : Callbacks) (w : World) : World :=
  if isConnected w then updateCallbacks cbs w
  else if isConnecting (svc w) then updateCallbacks cbs w
  else
    let w := with_svc (λ s, set_callbacks (merge (callbacks s) cbs) s) w in
    let w := with_svc (set_shouldReconnect true) w in
    let w := with_svc (set_isConnecting true) w in
    match connect_try w with
    | Some w' => w'
    | None =>
        (* catch (error) *)
        let w := with_svc (set_isConnecting false) w in
        call "onError" [JStr "Failed to create WebSocket connection"] w
    end.

Definition onopen (wsRef : nat) (w : World) : World :=
  if bool_decide (ws (svc w) ≠ Some wsRef) || negb (shouldReconnect (svc w))
  then
    match ws (svc w) with
    | Some cur => ws_close cur w
    | None => w
    end
  else
    let w := with_svc (set_isConnecting false) w in
    let w := with_svc (set_reconnectAttempts 0) w in
    call "onConnect" [] w.

(** [error?.type || 'Unknown error'] *)
Definition errorMessage (evType : string) : string :=
  "WebSocket connection error: "
  +:+ (if String.eqb evType "" then "Unknown error" else evType).

Definition onerror (wsRef : nat) (evType : string) (w : World) : World :=
  let w := with_svc (set_isConnecting false) w in
  call "onError" [JStr (errorMessage evType)] w.

(** The callback handed to [setTimeout] by [onclose]. *)
Definition reconnectTimer (w : World) : World :=
  if negb (token_missing (token w)) then
    connect (callbacks (svc w)) w
  else
    let w := with_svc (set_shouldReconnect false) w in
    call "onError"
         [JStr "Authentication token expired. Please login again."] w.

Definition onclose (wsRef : nat) (code : Z) (w : World) : World :=
  if bool_decide (ws (svc w) ≠ Some wsRef) then w
  else
    let w := with_svc (set_isConnecting false) w in
    let w := with_svc (set_ws None) w in
    let w := call "onDisconnect" [] w in
    if (code =? 1008)%Z then
      let w := with_svc (set_shouldReconnect false) w in
      call "onError" [JStr "Authentication failed. Please login again."] w
    else if shouldReconnect (svc w)
            && (reconnectAttempts (svc w) <? maxReconnectAttempts)%nat then
      let w :=
        with_svc (λ s, set_reconnectAttempts (S (reconnectAttempts s)) s) w in
      setTimeout reconnectDelay w
    else if (maxReconnectAttempts <=? reconnectAttempts (svc w))%nat then
      let w := with_svc (set_shouldReconnect false) w in
      call "onError"
        [JStr "Failed to reconnect to WebSocket server after multiple attempts"]
        w
    else w.

(** [onmessage]: [payload] is the result of [JSON.parse(event.data)],
    [None] when it raised; an exception of [handleMessage] is caught too. *)
Definition onmessage (payload : option JsValue) (w : World) : World :=
  let handle :=
    match channel w with
    | Account => Normalizer.handleMessage
    | Signal => Normalizer.handleClientMessage
    end in
  match payload ≫= handle (callbacks (svc w)) with
  | Some evs => emit evs w
  | None => w
  end.

Definition disconnect (w : World) : World :=
  let w := with_svc (set_shouldReconnect false) w in
  let w := with_svc (set_isConnecting false) w in
  let w :=
    match ws (svc w) with
    | Some s =>
        let w :=
          match readyState w s with
          | Some CONNECTING | Some OPEN => ws_close s w
          | _ => w
          end in
        with_svc (set_ws None) w
    | None => w
    end in
  with_svc (set_callbacks ∅) w.

(** *** Executions

    What can happen to a service: a call of one of its public methods, an
    event of one of its sockets, a reconnect timer that fires, or a change
    of the stored token. *)
Inductive Action : Type :=
| Connect (cbs : Callbacks)
| Disconnect
| UpdateCallbacks (cbs : Callbacks)
| SockOpen (s : nat)
| SockError (s : nat)
| SockClose (s : nat) (code : Z)
| SockMessage (s : nat) (payload : option JsValue)
| TimerFires
| StoreToken (t : option string)
| SetCtorOk (b : bool).

(** The browser delivers [open] to a connecting socket, [message] to an
    open one, [close] to one that is not closed yet, and runs a timer only
    if one is pending.  An [error] event carries the type name "error".
    A socket that fails reports [error] and then [close]; [sockets] marks
    it CLOSED when its [close] event is delivered, whereas its
    [readyState] in the browser reads CLOSED already during the [error]
    event. *)
Definition enabled (a : Action) (w : World) : bool :=
  match a with
  | SockOpen s => bool_decide (readyState w s = Some CONNECTING)
  | SockMessage s _ => bool_decide (readyState w s = Some OPEN)
  | SockError s => bool_decide (is_Some (readyState w s))
  | SockClose s _ =>
      bool_decide (is_Some (readyState w s) ∧ readyState w s ≠ Some CLOSED)
  | TimerFires => bool_decide (timers w ≠ [])
  | _ => true
  end.

Definition perform (a : Action) (w : World) : World :=
  match a with
  | Connect cbs => connect cbs w
  | Disconnect => disconnect w
  | UpdateCallbacks cbs => updateCallbacks cbs w
  | SockOpen s => onopen s (set_readyState s OPEN w)
  | SockError s => onerror s "error" w
  | SockClose s code => onclose s code (set_readyState s CLOSED w)
  | SockMessage s payload => onmessage payload w
  | TimerFires => reconnectTimer (set_timers (tail (timers w)) w)
  | StoreToken t => set_token t w
  | SetCtorOk b => set_ctorOk b w
  end.

Definition step (a : Action) (w : World) : option World :=
  if enabled a w then Some (perform a w) else None.

Fixpoint run (acts : list Action) (w : World) : option World :=
  match acts with
  | [] => Some w
  | a :: rest => step a w ≫= run rest
  end.

Inductive reachable (ch : Channel) (tok : option string) : World → Prop :=
| reach_init : reachable ch tok (init ch tok)
| reach_step a w w' :
    reachable ch tok w → step a w = Some w' → reachable ch tok w'.

(** Sockets that are connecting or open. *)
Definition live (r : ReadyState) : bool :=
  match r with CONNECTING | OPEN => true | _ => false end.

Definition liveSockets (w : World) : nat :=
  length (filter (λ r, live r = true) (sockets w)).

End Conn.

(** ** Chart engine: the [SignalChart] component *)

Module Chart.

(** *** Symbol navigation and candle selection *)

Record Props : Type := mkProps {
  symbolList : list string;
  onClose : option nat;
  onSymbolChange : option nat;
}.

(** The candle columns of a fetched dataset ([data.open], ...). *)
Record ChartData : Type := mkChartData {
  d_open : list float;
  d_high : list float;
  d_low : list float;
  d_close : list float;
  d_timestamp : list float;
}.

(** The component state the handlers read and set. *)
Record State : Type := mkState {
  data : option ChartData;
  selectedIndex : option Z;
  currentSymbol : string;
  touchStartX : option float;
  touchStartY : option float;
}.

Definition setSelectedIndex (i : option Z) (st : State) : State :=
  mkState (data st) i (currentSymbol st) (touchStartX st) (touchStartY st).
Definition setCurrentSymbol (s : string) (st : State) : State :=
  mkState (data st) (selectedIndex st) s (touchStartX st) (touchStartY st).
Definition setTouchStart (x y : option float) (st : State) : State :=
  mkState (data st) (selectedIndex st) (currentSymbol st) x y.

(** [list.indexOf(x)]: the first position of [x], or -1. *)
Fixpoint indexOf (x : string) (l : list string) : Z :=
  match l with
  | [] => -1
  | y :: rest =>
      if String.eqb y x then 0
      else let i := indexOf x rest in
           if (i =? -1)%Z then -1 else (i + 1)%Z
  end.

(** [list[i]] *)
Definition at_index (l : list string) (i : Z) : option string :=
  if (i <? 0)%Z then None else l !! Z.to_nat i.

Definition len (l : list string) : Z := Z.of_nat (length l).

Definition prevIndex (l : list string) (currentIndex : Z) : Z :=
  if (currentIndex =? 0)%Z then (len l - 1)%Z else (currentIndex - 1)%Z.

Definition nextIndex (l : list string) (currentIndex : Z) : Z :=
  if (currentIndex =? len l - 1)%Z then 0%Z else (currentIndex + 1)%Z.

Definition optCall (key : string) (f : option nat) (args : list JsValue)
  : list Event :=
  match f with Some fn => [Invoke key fn args] | None => [] end.

(** The [keydown] listener.  [event.preventDefault()] is not recorded. *)
Definition handleKeyDown (p : Props) (key : string) (st : State)
  : State * list Event :=
  if String.eqb key "Escape" && bool_decide (is_Some (onClose p)) then
    (st, optCall "onClose" (onClose p) [])
  else if String.eqb key "ArrowLeft" || String.eqb key "ArrowRight" then
    match data st with
    | None => (st, [])
    | Some d =>
        if bool_decide (d_open d = []) then (st, [])
        else
          let totalCandles := Z.of_nat (length (d_open d)) in
          if String.eqb key "ArrowLeft" then
            match selectedIndex st with
            | None => (setSelectedIndex (Some (totalCandles - 1)%Z) st, [])
            | Some i =>
                if (0 <? i)%Z then (setSelectedIndex (Some (i - 1)%Z) st, [])
                else (st, [])
            end
          else
            match selectedIndex st with
            | None => (setSelectedIndex (Some 0%Z) st, [])
            | Some i =>
                if (i <? totalCandles - 1)%Z
                then (setSelectedIndex (Some (i + 1)%Z) st, [])
                else (st, [])
            end
    end
  else if bool_decide (symbolList p = []) then (st, [])
  else
    let currentIndex := indexOf (currentSymbol st) (symbolList p) in
    if (currentIndex =? -1)%Z then (st, [])
    else
      let newIndex :=
        if String.eqb key "ArrowUp" then prevIndex (symbolList p) currentIndex
        else if String.eqb key "ArrowDown"
             then nextIndex (symbolList p) currentIndex
             else currentIndex in
      match at_index (symbolList p) newIndex with
      | Some newSymbol =>
          if negb (newIndex =? currentIndex)%Z
             && negb (String.eqb newSymbol "")
          then (setCurrentSymbol newSymbol st,
                optCall "onSymbolChange" (onSymbolChange p) [JStr newSymbol])
          else (st, [])
      | None => (st, [])
      end.

(** [handleTouchStart]; [onCanvas] is [target.tagName === 'CANVAS']. *)
Definition handleTouchStart (p : Props) (onCanvas : bool)
    (clientX clientY : float) (st : State) : State :=
  if bool_decide (symbolList p = []) then st
  else if onCanvas then st
  else setTouchStart (Some clientX) (Some clientY) st.

Definition minSwipeDistance : float := 50%float.

Definition handleTouchEnd (p : Props) (onCanvas : bool)
    (touchEndX touchEndY : float) (st : State) : State * list Event :=
  match symbolList p, touchStartY st, touchStartX st with
  | _ :: _, Some startY, Some startX =>
      if onCanvas then (setTouchStart None None st, [])
      else
        let deltaY := PrimFloat.abs (startY - touchEndY)%float in
        let deltaX := (startX - touchEndX)%float in
        if (minSwipeDistance <? PrimFloat.abs deltaX)%float
           && (deltaY <? PrimFloat.abs deltaX)%float then
          let currentIndex := indexOf (currentSymbol st) (symbolList p) in
          if (currentIndex =? -1)%Z then (setTouchStart None None st, [])
          else
            let newIndex :=
              if (0 <? deltaX)%float
              then prevIndex (symbolList p) currentIndex
              else nextIndex (symbolList p) currentIndex in
            match at_index (symbolList p) newIndex with
            | Some newSymbol =>
                if negb (newIndex =? currentIndex)%Z
                   && negb (String.eqb newSymbol "")
                then
                  (setTouchStart None None
                     (setSelectedIndex None (setCurrentSymbol newSymbol st)),
                   optCall "onSymbolChange" (onSymbolChange p)
                           [JStr newSymbol])
                else (setTouchStart None None st, [])
            | None => (setTouchStart None None st, [])
            end
        else (setTouchStart None None st, [])
  | _, _, _ => (setTouchStart None None st, [])
  end.

(** [handleSymbolKeyDown]; [newSymbol] is
    [editingSymbol.trim().toUpperCase()].  The editing state of the input
    field is not part of [State]. *)
Definition handleSymbolKeyDown (p : Props) (key : string) (newSymbol : string)
    (st : State) : State * list Event :=
  if String.eqb key "Enter" then
    if negb (String.eqb newSymbol "")
       && negb (String.eqb newSymbol (currentSymbol st))
    then (setSelectedIndex None (setCurrentSymbol newSymbol st),
          optCall "onSymbolChange" (onSymbolChange p) [JStr newSymbol])
    else (st, [])
  else (st, []).

(** *** Price scale of [drawChart] *)

Record CandleData : Type := mkCandle {
  c_open : float;
  c_high : float;
  c_low : float;
  c_close : float;
  c_timestamp : float;
}.

(** [data.open.map((_, i) => ({ open: data.open[i], ... }))]; a column
    that is too short yields [undefined], which every use below turns
    into NaN. *)
Definition candlesOf (d : ChartData) : list CandleData :=
  imap (λ i _,
          mkCandle (default nan (d_open d !! i)) (default nan (d_high d !! i))
                   (default nan (d_low d !! i)) (default nan (d_close d !! i))
                   (default nan (d_timestamp d !! i)))
       (d_open d).

(** [Math.min(a, b)] and [Math.max(a, b)]: NaN if an argument is NaN, and
    -0 counts as smaller than +0. *)
Definition min2 (a b : float) : float :=
  if is_nan a || is_nan b then nan
  else if (a <? b)%float then a
  else if (b <? a)%float then b
  else if get_sign a then a else b.

Definition max2 (a b : float) : float :=
  if is_nan a || is_nan b then nan
  else if (b <? a)%float then a
  else if (a <? b)%float then b
  else if get_sign a then b else a.

(** [Math.min(...xs)] and [Math.max(...xs)] *)
Definition Math_min (xs : list float) : float := fold_left min2 xs infinity.
Definition Math_max (xs : list float) : float :=
  fold_left max2 xs neg_infinity.

(** ToBoolean on numbers, and [x || d]. *)
Definition num_truthy (x : float) : bool :=
  negb ((x =? 0)%float || is_nan x).
Definition num_or (x d : float) : float := if num_truthy x then x else d.

Record Padding : Type := mkPadding {
  p_top : float; p_right : float; p_bottom : float; p_left : float;
}.

Definition padding (isMobile : bool) : Padding :=
  if isMobile then mkPadding 40 50 50 40 else mkPadding 60 100 80 80.

Definition minPrice (cs : list CandleData) : float :=
  Math_min (map c_low cs).
Definition maxPrice (cs : list CandleData) : float :=
  Math_max (map c_high cs).
Definition priceRange (cs : list CandleData) : float :=
  num_or (maxPrice cs - minPrice cs)%float 1%float.
Definition pricePadding (cs : list CandleData) : float :=
  (priceRange cs * 0.1)%float.
Definition minPriceScaled (cs : list CandleData) : float :=
  (minPrice cs - pricePadding cs)%float.
Definition maxPriceScaled (cs : list CandleData) : float :=
  (maxPrice cs + pricePadding cs)%float.
Definition scaledRange (cs : list CandleData) : float :=
  (maxPriceScaled cs - minPriceScaled cs)%float.

Definition chartHeight (isMobile : bool) (height : float) : float :=
  (height - p_top (padding isMobile) - p_bottom (padding isMobile))%float.

(** The fraction of the chart height at which a price is drawn. *)
Definition priceFraction (cs : list CandleData) (value : float) : float :=
  ((value - minPriceScaled cs) / scaledRange cs)%float.

(** [padding.top + chartHeight
      - ((value - minPriceScaled) / scaledRange) * chartHeight] *)
Definition priceY (isMobile : bool) (height : float)
    (cs : list CandleData) (value : float) : float :=
  (p_top (padding isMobile) + chartHeight isMobile height
   - priceFraction cs value * chartHeight isMobile height)%float.

(** The vertical geometry [drawChart] computes for one candle:
    [openY], [closeY], [highY], [lowY] and [bodyHeight]. *)
Record CandleGeometry : Type := mkGeometry {
  openY : float; closeY : float; highY : float; lowY : float;
  bodyHeight : float;
}.

Definition candleGeometry (isMobile : bool) (height : float)
    (cs : list CandleData) (c : CandleData) : CandleGeometry :=
  let oY := priceY isMobile height cs (c_open c) in
  let cY := priceY isMobile height cs (c_close c) in
  mkGeometry oY cY
             (priceY isMobile height cs (c_high c))
             (priceY isMobile height cs (c_low c))
             (max2 1%float (PrimFloat.abs (cY - oY)%float)).

(** [canvas.width] and [canvas.height] for a container of width
    [rectWidth], as set before [drawChart] is called. *)
Definition canvasSize (isMobile : bool) (rectWidth : float) : float * float :=
  let maxWidth :=
    if isMobile then (rectWidth - 16)%float
    else min2 1200%float (rectWidth - 32)%float in
  let aspectRatio := if isMobile then 0.5%float else (600 / 1200)%float in
  (maxWidth,
   min2 (if isMobile then 400%float else 600%float)
        (maxWidth * aspectRatio)%float).

Definition geometryFinite (g : CandleGeometry) : bool :=
  is_finite (openY g) && is_finite (closeY g) && is_finite (highY g)
  && is_finite (lowY g) && is_finite (bodyHeight g).

(** The vertical part of [drawChart]: nothing for an absent or empty
    dataset, else the geometry of every candle. *)
Definition drawChart (isMobile : bool) (height : float)
    (d : option ChartData) : option (list CandleGeometry) :=
  match d with
  | None => None
  | Some d =>
      let candles := candlesOf d in
      if bool_decide (candles = []) then None
      else Some (map (candleGeometry isMobile height candles) candles)
  end.

End Chart.

(** ** The WebSocket URL

    A string stands for the UTF-8 encoding of the JavaScript string; this
    leaves out the strings with a lone surrogate, on which
    [encodeURIComponent] raises (a failure to build the socket, [ctorOk]). *)

Module Url.
Import Conn.
Import (notations) Stdlib.Strings.Ascii.

(** The rest of [s] after the literal prefix [pre], if [s] starts with it. *)
Fixpoint strip_prefix (pre s : string) : option string :=
  match pre, s with
  | "", _ => Some s
  | String a pre', String b s' =>
      if Ascii.eqb a b then strip_prefix pre' s' else None
  | String _ _, "" => None
  end.

(** [s.replace(/^pre/, rep)] for a literal [pre]. *)
Definition replace_prefix (pre rep s : string) : string :=
  match strip_prefix pre s with
  | Some rest => rep +:+ rest
  | None => s
  end.

(** [s.replace(/\/$/, '')] *)
Fixpoint strip_trailing_slash (s : string) : string :=
  match s with
  | "" => ""
  | String c "" => if Ascii.eqb c "/"%char then "" else s
  | String c rest => String c (strip_trailing_slash rest)
  end.

(** The characters [encodeURIComponent] leaves as they are:
    [A-Z a-z 0-9 - _ . ! ~ * ' ( )]. *)
Definition unreserved (c : Ascii.ascii) : bool :=
  let n := Ascii.nat_of_ascii c in
  (65 <=? n) && (n <=? 90) || (97 <=? n) && (n <=? 122)
  || (48 <=? n) && (n <=? 57)
  || existsb (Nat.eqb n) [45; 95; 46; 33; 126; 42; 39; 40; 41].

Definition hexDigit (n : nat) : Ascii.ascii :=
  Ascii.ascii_of_nat (if n <? 10 then 48 + n else 55 + n).

(** One byte of the UTF-8 encoding: kept, or written [%XX]. *)
Definition encodeByte (c : Ascii.ascii) : string :=
  if unreserved c then String c ""
  else let n := Ascii.nat_of_ascii c in
       String "%"%char
         (String (hexDigit (n / 16)) (String (hexDigit (n mod 16)) "")).

Fixpoint encodeURIComponent (s : string) : string :=
  match s with
  | "" => ""
  | String c rest => encodeByte c +:+ encodeURIComponent rest
  end.

Definition endpoint (ch : Channel) : string :=
  match ch with
  | Account => "/api/v1/futures/websocket/account"
  | Signal => "/api/v1/futures/websocket/client"
  end.

(** [getWebSocketUrl()], with [apiUrl] the result of [getApiBaseUrl()] and
    [tok] the stored token. *)
Definition getWebSocketUrl (ch : Channel) (apiUrl : string)
    (tok : option string) : string :=
  let wsUrl :=
    replace_prefix "https:" "wss:" (replace_prefix "http:" "ws:" apiUrl) in
  let wsUrl := strip_trailing_slash wsUrl in
  let wsUrl := wsUrl +:+ endpoint ch in
  match tok with
  | Some t =>
      if String.eqb t "" then wsUrl
      else wsUrl +:+ "?token=" +:+ encodeURIComponent t
  | None => wsUrl
  end.



(** The inverse of [encodeURIComponent] on its image: what the receiving
    end does with the query.  It is not part of the client. *)
Definition hexValue (c : Ascii.ascii) : nat :=
  let n := Ascii.nat_of_ascii c in if n <? 58 then n - 48 else n - 55.

Fixpoint decodeURIComponent (s : string) : string :=
  match s with
  | "" => ""
  | String c rest =>
      match Ascii.eqb c "%"%char, rest with
      | true, String h (String l rest') =>
          String (Ascii.ascii_of_nat (16 * hexValue h + hexValue l))
                 (decodeURIComponent rest')
      | _, _ => String c (decodeURIComponent rest)
      end
  end.

End Url.

(** ** Outbound frames of the account service *)

Module Outbound.
Import Conn.

(** [send(message)]: the held socket and the value handed to
    [JSON.stringify] and [ws.send]; nothing, but a warning, when the
    connection is not open. *)
Definition send (message : JsValue) (w : World) : option (nat * JsValue) :=
  match ws (svc w) with
  | Some s =>
      if bool_decide (readyState w s = Some OPEN) then Some (s, message)
      else None
  | None => None
  end.

Definition subscribe (channels : list string) (w : World)
  : option (nat * JsValue) :=
  send (JObj [("type", JStr "subscribe");
              ("channels", JArr (JStr <$> channels))]) w.

Definition unsubscribe (channels : list string) (w : World)
  : option (nat * JsValue) :=
  send (JObj [("type", JStr "unsubscribe");
              ("channels", JArr (JStr <$> channels))]) w.

End Outbound.

(** ** Observing an execution *)

Module Observe.
Import Conn.

(** The callback invocations an action adds to the trace. *)
Definition emitted (a : Action) (w : World) : list Event :=
  drop (length (trace w)) (trace (perform a w)).

(** Actions through which the caller registers no callback. *)
Definition registersNothing (a : Action) : Prop :=
  match a with
  | Connect cbs | UpdateCallbacks cbs => cbs = ∅
  | _ => True
  end.


End Observe.

(** ** Chart layout: widths

    The horizontal quantities of [drawChart]. *)

Module Layout.
Import Chart.

(** [canvas.width - padding.left - padding.right] *)
Definition chartWidth (isMobile : bool) (width : float) : float :=
  (width - p_left (padding isMobile) - p_right (padding isMobile))%float.

(** [candles.length] as a number. *)
Definition lengthOf (cs : list CandleData) : float :=
  of_uint63 (Uint63Axioms.of_Z (Z.of_nat (length cs))).

(** [chartWidth / candles.length] *)
Definition candleWidth (isMobile : bool) (width : float)
    (cs : list CandleData) : float :=
  (chartWidth isMobile width / lengthOf cs)%float.

(** [Math.min(candleWidth * 0.7, 20)] *)
Definition optimalCandleWidth (isMobile : bool) (width : float)
    (cs : list CandleData) : float :=
  min2 (candleWidth isMobile width cs * 0.7)%float 20%float.

End Layout.

(** ** The bot control card *)

Module BotStatusCard.

Record BotStatus : Type := mkBotStatus {
  running : bool;
  stop_flag : bool;
}.

Record Props : Type := mkProps {
  status : BotStatus;
  isLoading : bool;
  isWebSocketConnecting : bool;
  hasReceivedStatus : bool;
}.

Definition isRunning (p : Props) : bool :=
  running (status p) && negb (stop_flag (status p)).

Definition statusText (p : Props) : string :=
  if isWebSocketConnecting p || negb (hasReceivedStatus p) then "Connecting"
  else if isRunning p then "Running"
  else "Stopped".

(** The [disabled] attribute of the Start, Stop and Trigger buttons. *)
Definition startDisabled (p : Props) : bool := isRunning p || isLoading p.
Definition stopDisabled (p : Props) : bool :=
  negb (isRunning p) || isLoading p.
Definition triggerDisabled (p : Props) : bool := isLoading p.

End BotStatusCard.

(** ** The scan signal page: sorting state and trend groups *)

Module ScanSignalPage.

Record ScanSignal : Type := mkSignal {
  symbol : string;
  time : float;
  trend : option string;
  state : string;
  score : float;
  ema_fast : float;
  ema_slow : float;
  ema_50 : float;
  adx : float;
}.

(** [getTrendLabel]: the [trend] field when it is truthy (a non-empty
    string), else a label computed from the three EMA values. *)
Definition getTrendLabel (signal : ScanSignal) : string :=
  let fromEma :=
    if (ema_slow signal <? ema_fast signal)%float
       && (ema_50 signal <? ema_slow signal)%float then "Bullish"
    else if (ema_fast signal <? ema_slow signal)%float
            && (ema_slow signal <? ema_50 signal)%float then "Bearish"
    else "Neutral" in
  match trend signal with
  | Some t => if String.eqb t "" then fromEma else t
  | None => fromEma
  end.

Inductive SortColumn : Type :=
  | ColSymbol | ColTrend | ColState | ColScore | ColEmaFast | ColEmaSlow
  | ColEma50 | ColAdx | ColTime.

Inductive SortDirection : Type := Asc | Desc.

#[global] Instance SortColumn_eq_dec : EqDecision SortColumn.
Proof. solve_decision. Defined.

Record SortState : Type := mkSort {
  sortColumn : SortColumn;
  sortDirection : SortDirection;
}.

Definition handleSort (column : SortColumn) (s : SortState) : SortState :=
  if bool_decide (sortColumn s = column) then
    mkSort (sortColumn s)
           (match sortDirection s with Asc => Desc | Desc => Asc end)
  else mkSort column Asc.

Record Groups : Type := mkGroups {
  bullish : list ScanSignal;
  bearish : list ScanSignal;
  neutral : list ScanSignal;
}.

(** The body of the [forEach] loop of [groupedSignals]: the signal is
    pushed onto one of three arrays.  [toLowerCase] is
    [String.prototype.toLowerCase]. *)
Definition pushSignal (toLowerCase : string → string) (g : Groups)
    (signal : ScanSignal) : Groups :=
  let trend := toLowerCase (getTrendLabel signal) in
  if String.eqb trend "bullish" || String.eqb trend "long" then
    mkGroups (bullish g ++ [signal]) (bearish g) (neutral g)
  else if String.eqb trend "bearish" || String.eqb trend "short" then
    mkGroups (bullish g) (bearish g ++ [signal]) (neutral g)
  else mkGroups (bullish g) (bearish g) (neutral g ++ [signal]).

Definition groupedSignals (toLowerCase : string → string)
    (filteredSignals : list ScanSignal) : Groups :=
  fold_left (pushSignal toLowerCase) filteredSignals (mkGroups [] [] []).

(** The tests of that loop: which signals go to the first and to the
    second array. *)
Definition inBullish (toLowerCase : string → string) (signal : ScanSignal)
  : bool :=
  String.eqb (toLowerCase (getTrendLabel signal)) "bullish"
  || String.eqb (toLowerCase (getTrendLabel signal)) "long".

Definition inBearish (toLowerCase : string → string) (signal : ScanSignal)
  : bool :=
  negb (inBullish toLowerCase signal)
  && (String.eqb (toLowerCase (getTrendLabel signal)) "bearish"
      || String.eqb (toLowerCase (getTrendLabel signal)) "short").

End ScanSignalPage.

(** ** Concrete frames, registrations and executions used below *)

Module Scenario.
Import Conn.

(** A page's registration: [onError], [onConnect], [onDisconnect] and a
    data callback. *)
Definition pageCallbacks : Callbacks :=
  {[ "onError" := HFn 1; "onConnect" := HFn 2; "onDisconnect" := HFn 3;
     "onPositions" := HFn 4 ]}.

(** [{"type":"positions","data":{"symbol":"BTCUSDT"}}] *)
Definition btcPosition : JsValue := JObj [("symbol", JStr "BTCUSDT")].
Definition positionsObjectFrame : JsValue :=
  JObj [("type", JStr "positions"); ("data", btcPosition)].

(** [{"type":"positions","data":null}], [{"type":"positions"}] and
    [{"type":"position_update","data":null}] *)
Definition positionsNullFrame : JsValue :=
  JObj [("type", JStr "positions"); ("data", JNull)].
Definition positionsNoDataFrame : JsValue :=
  JObj [("type", JStr "positions")].
Definition positionUpdateNullFrame : JsValue :=
  JObj [("type", JStr "position_update"); ("data", JNull)].

Definition start : World := init Account (Some "jwt").

(** The state reached by an execution, or the initial state if the
    execution is not one the browser allows. *)
Definition after (acts : list Action) : World :=
  default start (run acts start).

(** A socket is dropped while the service waits to reconnect, and the
    page unmounts before the timer fires. *)
Definition disconnectedWhileWaiting : list Action :=
  [Connect pageCallbacks; SockOpen 0; SockClose 0 1006; Disconnect].

(** A page connects, unmounts before the socket opens, and the next page
    connects: socket 0 is superseded by socket 1. *)
Definition superseded : list Action :=
  [Connect pageCallbacks; Disconnect; Connect pageCallbacks].

(** The same with socket 0 already open when the page unmounts. *)
Definition openedThenSuperseded : list Action :=
  [Connect pageCallbacks; SockOpen 0; Disconnect; Connect pageCallbacks].

(** The closed socket 0 then reports its failure ([error], [close]), a
    further [connect()] arrives and the connecting socket 1 opens. *)
Definition staleError : list Action :=
  superseded ++ [SockError 0; SockClose 0 1006].
Definition thirdConnect : list Action :=
  staleError ++ [Connect pageCallbacks].
Definition staleOpen : list Action :=
  thirdConnect ++ [SockOpen 1].

(** Five failed attempts in a row; socket 5 is then superseded like
    socket 0 above. *)
Definition fiveFailures : list Action :=
  [Connect pageCallbacks;
   SockClose 0 1006; TimerFires; SockClose 1 1006; TimerFires;
   SockClose 2 1006; TimerFires; SockClose 3 1006; TimerFires;
   SockClose 4 1006; TimerFires].
Definition exhaustedThenSuperseded : list Action :=
  fiveFailures ++ [Disconnect; Connect pageCallbacks].

(** The symbol list ["A","B","C"] with "C" displayed and the candle at
    index 2 selected. *)
Definition navProps : Chart.Props :=
  Chart.mkProps ["A"; "B"; "C"] None (Some 5).
Definition navState : Chart.State :=
  Chart.mkState None (Some 2%Z) "C" None None.

(** One candle with open = high = low = close = 100. *)
Definition flatCandle : Chart.CandleData :=
  Chart.mkCandle 100 100 100 100 1700000000000.
Definition flatData : Chart.ChartData :=
  Chart.mkChartData [100%float] [100%float] [100%float] [100%float]
                    [1700000000000%float].

(** A desktop container 1232 px wide and a phone container 376 px wide.
    The heights assigned to the canvas, 600 and 180, are whole numbers, so
    the canvas stores them as they are. *)
Definition desktopHeight : float := snd (Chart.canvasSize false 1232).
Definition mobileHeight : float := snd (Chart.canvasSize true 376).

End Scenario.

(** Concrete values for the scan signal page. *)

Module ScanExample.
Import ScanSignalPage.

(** Lower-casing of the letters A-Z, which is what [toLowerCase] does on
    ASCII text. *)
Fixpoint lowerAscii (s : string) : string :=
  match s with
  | "" => ""
  | String c rest =>
      let n := Ascii.nat_of_ascii c in
      String (if (65 <=? n)%nat && (n <=? 90)%nat
              then Ascii.ascii_of_nat (n + 32) else c)
             (lowerAscii rest)
  end.

(** A signal without a trend whose EMA values fall from fast to slow. *)
Definition risingSignal : ScanSignal :=
  mkSignal "BTCUSDT" 0 None "WATCH" 0 3 2 1 0.

End ScanExample.

(** * Properties *)

(** ** Message normalizer *)

Section NormalizerFacts.
Import Normalizer Scenario.

Lemma invoke_registered cbs key f args :
  cbs !! key = Some (HFn f) → invoke cbs key args = [Invoke key f args].
Proof. intros H. unfold invoke. by rewrite H. Qed.

Lemma is_str_refl s : is_str s (JStr s) = true.
Proof. simpl. apply String.eqb_refl. Qed.

(** What a frame of kind [positions] hands to [onPositions]. *)
Lemma handleMessage_positions cbs message data :
  messageTypeOf message = Some (JStr "positions") →
  get "data" message = Some data →
  handleMessage cbs message
  = Some (invoke cbs "onPositions"
            [if isArray data then data
             else if truthy data then JArr [data] else JArr []]).
Proof.
  intros Hk Hd. unfold handleMessage. rewrite Hk. simpl. by rewrite Hd.
Qed.

(** What a frame of kind [position_update] hands to [onPositions]. *)
Lemma handleMessage_position_update cbs message data :
  messageTypeOf message = Some (JStr "position_update") →
  get "data" message = Some data →
  handleMessage cbs message
  = Some (invoke cbs "onPositions"
            [if isArray data then data else JArr [data]]).
Proof.
  intros Hk Hd. unfold handleMessage. rewrite Hk. simpl. by rewrite Hd.
Qed.

(** The normalizer on some wire shapes. *)
Example event_field_has_priority :
  handleMessage pageCallbacks
    (JObj [("event", JStr "positions"); ("type", JStr "balance");
           ("data", JArr [btcPosition])])
  = Some [Invoke "onPositions" 4 [JArr [btcPosition]]].
Proof. reflexivity. Qed.

Example unrecognized_kind_containing_position :
  handleMessage pageCallbacks
    (JObj [("type", JStr "open_position_changed"); ("data", JNull)])
  = Some [Invoke "onPositions" 4 [JArr [JNull]]].
Proof. reflexivity. Qed.

Example unrecognized_kind_is_dropped :
  handleMessage pageCallbacks (JObj [("type", JStr "heartbeat")]) = Some [].
Proof. reflexivity. Qed.

Example numeric_kind_raises :
  handleMessage pageCallbacks (JObj [("type", JNum 5)]) = None.
Proof. reflexivity. Qed.

Example bare_array_is_a_signal_batch :
  handleClientMessage {[ "onScanSignal" := HFn 8 ]}
    (JArr [JObj [("symbol", JStr "ETHUSDT"); ("state", JStr "WATCH")]])
  = Some [Invoke "onScanSignal" 8
            [JArr [JObj [("symbol", JStr "ETHUSDT"); ("state", JStr "WATCH")]]]].
Proof. reflexivity. Qed.

(** A frame that makes [handleMessage] raise is dropped by [onmessage]. *)
Example raising_frame_is_dropped :
  Conn.onmessage (Some JNull) Scenario.start = Scenario.start
  ∧ Conn.onmessage None Scenario.start = Scenario.start.
Proof. split; reflexivity. Qed.

(** C7, as stated, fails: the frame [{"type":"positions","data":null}] has
    kind [positions] and a payload that is not an array, and
    [onPositions] receives the empty array, not the singleton [[null]]. *)
Lemma positions_null_not_wrapped :
  messageTypeOf positionsNullFrame = Some (JStr "positions")
  ∧ get "data" positionsNullFrame = Some JNull
  ∧ isArray JNull = false
  ∧ handleMessage pageCallbacks positionsNullFrame
    = Some [Invoke "onPositions" 4 [JArr []]]
  ∧ handleMessage pageCallbacks positionsNullFrame
    ≠ Some [Invoke "onPositions" 4 [JArr [JNull]]].
Proof. repeat split; try reflexivity. vm_compute. discriminate. Qed.

(** C7, amended: for every frame whose kind is [positions] or
    [position_update] the normalizer hands an array to the positions
    callback: an array payload unchanged, and a payload that is not an
    array wrapped in a singleton, except that a falsy payload of a
    [positions] frame gives the empty array.  The frame
    [{"type":"positions","data":{"symbol":"BTCUSDT"}}] yields
    [[{"symbol":"BTCUSDT"}]]. *)
Theorem positions_payload_normalized :
  (∀ cbs message kind data,
      messageTypeOf message = Some (JStr kind) →
      kind = "positions" ∨ kind = "position_update" →
      get "data" message = Some data →
      handleMessage cbs message
      = Some (invoke cbs "onPositions"
                [if isArray data then data
                 else if String.eqb kind "positions" && negb (truthy data)
                      then JArr []
                      else JArr [data]]))
  ∧ (∀ cbs,
        handleMessage cbs positionsObjectFrame
        = Some (invoke cbs "onPositions" [JArr [btcPosition]])).
Proof.
  split.
  - intros cbs message kind data Hk [-> | ->] Hd.
    + rewrite (handleMessage_positions _ _ _ Hk Hd). simpl.
      by destruct (isArray data), (truthy data).
    + rewrite (handleMessage_position_update _ _ _ Hk Hd). done.
  - intros cbs. reflexivity.
Qed.

Lemma positions_payload_normalized_witness :
  messageTypeOf positionsObjectFrame = Some (JStr "positions")
  ∧ get "data" positionsObjectFrame = Some btcPosition
  ∧ handleMessage pageCallbacks positionsObjectFrame
    = Some [Invoke "onPositions" 4 [JArr [btcPosition]]].
Proof.
  split; [reflexivity | split; [reflexivity |]].
  rewrite (proj1 positions_payload_normalized pageCallbacks
             positionsObjectFrame "positions" btcPosition);
    [reflexivity | reflexivity | left; reflexivity | reflexivity].
Defined.

(** C10: a [positions] frame whose data is null or undefined hands the
    empty array to the positions callback, and a [position_update] frame
    whose data is null hands it the singleton [[null]]. *)
Theorem null_payload_positions_vs_position_update :
  ∀ cbs message data,
    get "data" message = Some data →
    data = JNull ∨ data = JUndefined →
    (messageTypeOf message = Some (JStr "positions") →
     handleMessage cbs message = Some (invoke cbs "onPositions" [JArr []]))
    ∧ (messageTypeOf message = Some (JStr "position_update") →
       data = JNull →
       handleMessage cbs message
       = Some (invoke cbs "onPositions" [JArr [JNull]])).
Proof.
  intros cbs message data Hd Hnull. split.
  - intros Hk. rewrite (handleMessage_positions _ _ _ Hk Hd).
    by destruct Hnull as [-> | ->].
  - intros Hk ->. by rewrite (handleMessage_position_update _ _ _ Hk Hd).
Qed.

Lemma null_payload_positions_vs_position_update_witness :
  (get "data" positionsNullFrame = Some JNull
   ∧ handleMessage pageCallbacks positionsNullFrame
     = Some [Invoke "onPositions" 4 [JArr []]])
  ∧ (get "data" positionsNoDataFrame = Some JUndefined
     ∧ handleMessage pageCallbacks positionsNoDataFrame
       = Some [Invoke "onPositions" 4 [JArr []]])
  ∧ (get "data" positionUpdateNullFrame = Some JNull
     ∧ handleMessage pageCallbacks positionUpdateNullFrame
       = Some [Invoke "onPositions" 4 [JArr [JNull]]]).
Proof.
  split; [| split]; (split; [reflexivity |]).
  - rewrite (proj1 (null_payload_positions_vs_position_update pageCallbacks
                      positionsNullFrame JNull eq_refl (or_introl eq_refl))
                   eq_refl).
    reflexivity.
  - rewrite (proj1 (null_payload_positions_vs_position_update pageCallbacks
                      positionsNoDataFrame JUndefined eq_refl
                      (or_intror eq_refl))
                   eq_refl).
    reflexivity.
  - rewrite (proj2 (null_payload_positions_vs_position_update pageCallbacks
                      positionUpdateNullFrame JNull eq_refl
                      (or_introl eq_refl))
                   eq_refl eq_refl).
    reflexivity.
Defined.

End NormalizerFacts.

(** ** Transport connection manager *)

Section ConnFacts.
Import Conn Scenario.

Ltac conn_unfold :=
  unfold connect, connect_try, new_WebSocket, updateCallbacks, onopen,
    onerror, onclose, reconnectTimer, onmessage, disconnect, ws_close,
    set_readyState, setTimeout, call, emit, with_svc, set_sockets,
    set_timers, set_token, set_ctorOk in *.

Ltac conn_cases := conn_unfold; repeat (case_match; simpl in * ); simpl in *.

Lemma merge_twice (c n : Callbacks) : merge (merge c n) n = merge c n.
Proof. unfold merge. by rewrite (assoc_L (∪)), (idemp_L (∪)). Qed.

Lemma run_app acts1 acts2 w :
  run (acts1 ++ acts2) w = run acts1 w ≫= run acts2.
Proof.
  revert w. induction acts1 as [| a acts1 IH]; intros w; simpl; [done |].
  destruct (step a w) as [w1 |]; simpl; [apply IH | done].
Qed.

Lemma run_reachable ch tok acts :
  ∀ w w', reachable ch tok w → run acts w = Some w' → reachable ch tok w'.
Proof.
  induction acts as [| a acts IH]; intros w w' Hw Hrun; simpl in Hrun.
  - by inversion Hrun; subst.
  - destruct (step a w) as [w1 |] eqn:Hstep; simpl in Hrun; [| done].
    eapply IH; [| exact Hrun]. by eapply reach_step.
Qed.

(** *** The attempt counter *)

Lemma connect_attempts cbs w :
  reconnectAttempts (svc (connect cbs w)) = reconnectAttempts (svc w).
Proof. conn_cases; simplify_eq; done. Qed.

Lemma onopen_attempts s w :
  reconnectAttempts (svc (onopen s w)) ≤ reconnectAttempts (svc w).
Proof. conn_cases; lia. Qed.

Lemma onclose_attempts s code w :
  reconnectAttempts (svc w) ≤ maxReconnectAttempts →
  reconnectAttempts (svc (onclose s code w)) ≤ maxReconnectAttempts.
Proof.
  intros Hle. conn_cases; try lia.
  match goal with
  | H : _ && _ = true |- _ => apply andb_prop in H as [_ ?%Nat.ltb_lt]
  end.
  lia.
Qed.

Lemma reconnectTimer_attempts w :
  reconnectAttempts (svc (reconnectTimer w)) = reconnectAttempts (svc w).
Proof.
  unfold reconnectTimer. case_match; [apply connect_attempts |].
  conn_cases; done.
Qed.

Lemma disconnect_attempts w :
  reconnectAttempts (svc (disconnect w)) = reconnectAttempts (svc w).
Proof. conn_cases; done. Qed.

Lemma perform_attempts a w :
  reconnectAttempts (svc w) ≤ maxReconnectAttempts →
  reconnectAttempts (svc (perform a w)) ≤ maxReconnectAttempts.
Proof.
  intros Hle. destruct a; cbn [perform].
  - by rewrite connect_attempts.
  - by rewrite disconnect_attempts.
  - done.
  - etrans; [apply onopen_attempts | done].
  - done.
  - by apply onclose_attempts.
  - conn_cases; done.
  - by rewrite reconnectTimer_attempts.
  - done.
  - done.
Qed.

Lemma reachable_attempts ch tok w :
  reachable ch tok w → reconnectAttempts (svc w) ≤ maxReconnectAttempts.
Proof.
  induction 1 as [| a w w' _ IH Hstep].
  - simpl. unfold maxReconnectAttempts. lia.
  - unfold step in Hstep. destruct (enabled a w); [| done].
    inversion Hstep; subst. by apply perform_attempts.
Qed.

(** *** Close events *)

(** A close event of a socket that is not the one the service holds is
    ignored. *)
Lemma onclose_stale s code w :
  ws (svc w) ≠ Some s → onclose s code w = w.
Proof. intros Hne. unfold onclose. by rewrite bool_decide_eq_true_2. Qed.

Lemma set_readyState_svc s r w : svc (set_readyState s r w) = svc w.
Proof. done. Qed.

(** No close event with code 1008 schedules a timer. *)
Lemma onclose_1008_timers s w : timers (onclose s 1008 w) = timers w.
Proof. conn_cases; done. Qed.

Lemma onclose_1008_active s w :
  ws (svc w) = Some s →
  shouldReconnect (svc (onclose s 1008 w)) = false
  ∧ ws (svc (onclose s 1008 w)) = None
  ∧ isConnecting (svc (onclose s 1008 w)) = false
  ∧ trace (onclose s 1008 w)
    = trace w ++ invoke (callbacks (svc w)) "onDisconnect" []
              ++ invoke (callbacks (svc w)) "onError"
                   [JStr "Authentication failed. Please login again."].
Proof.
  intros Hws. unfold onclose.
  rewrite bool_decide_eq_false_2 by (by intros ?).
  simpl. by rewrite <- (assoc_L (++)).
Qed.

(** The last failure: the active socket closes when no attempt is left. *)
Lemma onclose_exhausted s code w :
  ws (svc w) = Some s →
  reconnectAttempts (svc w) = maxReconnectAttempts →
  timers (onclose s code w) = timers w
  ∧ shouldReconnect (svc (onclose s code w)) = false
  ∧ reconnectAttempts (svc (onclose s code w)) = maxReconnectAttempts
  ∧ trace (onclose s code w)
    = trace w ++ invoke (callbacks (svc w)) "onDisconnect" []
              ++ invoke (callbacks (svc w)) "onError"
                   [JStr (if (code =? 1008)%Z
                          then "Authentication failed. Please login again."
                          else "Failed to reconnect to WebSocket server after multiple attempts")].
Proof.
  intros Hws Hmax. unfold onclose.
  rewrite bool_decide_eq_false_2 by (by intros ?).
  simpl. rewrite Hmax. simpl. rewrite andb_false_r.
  destruct (code =? 1008)%Z; simpl; by rewrite <- (assoc_L (++)).
Qed.

(** The open event of the active socket, reconnection not cancelled. *)
Lemma onopen_success s w :
  ws (svc w) = Some s → shouldReconnect (svc w) = true →
  reconnectAttempts (svc (onopen s w)) = 0
  ∧ isConnecting (svc (onopen s w)) = false
  ∧ ws (svc (onopen s w)) = Some s
  ∧ sockets (onopen s w) = sockets w
  ∧ trace (onopen s w) = trace w ++ invoke (callbacks (svc w)) "onConnect" [].
Proof.
  intros Hws Hsr. unfold onopen.
  rewrite bool_decide_eq_false_2 by (by intros ?).
  rewrite Hsr. done.
Qed.

(** The open event of a socket that has been superseded closes the socket
    the service holds, whichever it is. *)
Lemma onopen_superseded s cur w :
  ws (svc w) = Some cur → cur ≠ s → onopen s w = ws_close cur w.
Proof.
  intros Hws Hne. unfold onopen. rewrite Hws.
  rewrite bool_decide_eq_true_2 by congruence. done.
Qed.

(** After [disconnect()] no socket is held, nothing is registered and
    [shouldReconnect] is false; a pending timer stays pending. *)
Lemma disconnect_state w :
  svc (disconnect w) = mkService None (reconnectAttempts (svc w)) ∅ false false
  ∧ timers (disconnect w) = timers w
  ∧ token (disconnect w) = token w
  ∧ ctorOk (disconnect w) = ctorOk w
  ∧ trace (disconnect w) = trace w.
Proof.
  unfold disconnect, ws_close, readyState. simpl.
  destruct (ws (svc w)) as [s |] eqn:Hws; simpl.
  - by destruct (sockets w !! s) as [[] |].
  - unfold set_callbacks. simpl. by rewrite Hws.
Qed.

(** A reconnect timer that fires on a service in the state [disconnect()]
    leaves, with a token in storage, builds a socket and turns
    [shouldReconnect] on again; it invokes no callback. *)
Lemma reconnectTimer_on_disconnected w n :
  svc w = mkService None n ∅ false false →
  token_missing (token w) = false → ctorOk w = true →
  sockets (reconnectTimer w) = sockets w ++ [CONNECTING]
  ∧ svc (reconnectTimer w) = mkService (Some (length (sockets w))) n ∅ true true
  ∧ trace (reconnectTimer w) = trace w.
Proof.
  destruct w as [ch sv so ti tok ct tr]. simpl. intros -> Htok Hctor.
  unfold reconnectTimer, connect, connect_try, new_WebSocket, isConnected.
  simpl. rewrite Htok, Hctor. simpl. repeat split.
Qed.

Lemma timer_after_disconnect w :
  token_missing (token w) = false → ctorOk w = true →
  sockets (reconnectTimer (disconnect w))
  = sockets (disconnect w) ++ [CONNECTING]
  ∧ svc (reconnectTimer (disconnect w))
    = mkService (Some (length (sockets (disconnect w))))
                (reconnectAttempts (svc w)) ∅ true true
  ∧ trace (reconnectTimer (disconnect w)) = trace w.
Proof.
  intros Htok Hctor.
  destruct (disconnect_state w) as (Hsvc & _ & Htok' & Hctor' & Htr).
  rewrite <- Htr. apply reconnectTimer_on_disconnected; congruence.
Qed.

(** *** The claims about the connection state machine *)

(** C1 (the code departs from it): a reconnect timer is pending after a
    close with code 1006, [disconnect()] is called, and the timer fires.
    The timer callback reads the token only, never [shouldReconnect]; with
    a token in storage it calls [connect], which builds socket 1, holds it
    as the active socket and sets [shouldReconnect] back to true.  No
    callback runs, since [disconnect()] emptied the registration. *)
Theorem timer_reconnects_after_disconnect :
  run disconnectedWhileWaiting start = Some (after disconnectedWhileWaiting)
  ∧ timers (after disconnectedWhileWaiting) = [reconnectDelay]
  ∧ sockets (after disconnectedWhileWaiting) = [CLOSED]
  ∧ svc (after disconnectedWhileWaiting) = mkService None 1 ∅ false false
  ∧ enabled TimerFires (after disconnectedWhileWaiting) = true
  ∧ sockets (perform TimerFires (after disconnectedWhileWaiting))
    = [CLOSED; CONNECTING]
  ∧ svc (perform TimerFires (after disconnectedWhileWaiting))
    = mkService (Some 1) 1 ∅ true true
  ∧ trace (perform TimerFires (after disconnectedWhileWaiting))
    = trace (after disconnectedWhileWaiting).
Proof. repeat apply conj; vm_compute; reflexivity. Qed.

(** C2, as stated, fails: socket 0 was open, has been closed by
    [disconnect()] and superseded by socket 1, and its close event arrives
    with code 1008.  [onError] is registered, yet it is not invoked, and
    [shouldReconnect] stays true. *)
Lemma stale_1008_close_is_ignored :
  run openedThenSuperseded start = Some (after openedThenSuperseded)
  ∧ sockets (after openedThenSuperseded) = [CLOSING; CONNECTING]
  ∧ ws (svc (after openedThenSuperseded)) = Some 1
  ∧ callbacks (svc (after openedThenSuperseded)) !! "onError" = Some (HFn 1)
  ∧ enabled (SockClose 0 1008) (after openedThenSuperseded) = true
  ∧ shouldReconnect
      (svc (perform (SockClose 0 1008) (after openedThenSuperseded))) = true
  ∧ trace (perform (SockClose 0 1008) (after openedThenSuperseded))
    = trace (after openedThenSuperseded).
Proof. repeat apply conj; vm_compute; reflexivity. Qed.

(** C2, amended: on both channels no close event with code 1008 schedules
    a reconnect timer, whatever [shouldReconnect] and the attempt counter
    are.  When the closing socket is the one the service holds,
    [shouldReconnect] becomes false and [onDisconnect] and then [onError]
    ("Authentication failed. Please login again.") are invoked if
    registered; the close event of any other socket changes nothing. *)
Theorem close_1008_never_reconnects :
  ∀ (w : World) (s : nat),
    timers (perform (SockClose s 1008) w) = timers w
    ∧ (ws (svc w) = Some s →
       shouldReconnect (svc (perform (SockClose s 1008) w)) = false
       ∧ ws (svc (perform (SockClose s 1008) w)) = None
       ∧ trace (perform (SockClose s 1008) w)
         = trace w ++ invoke (callbacks (svc w)) "onDisconnect" []
                   ++ invoke (callbacks (svc w)) "onError"
                        [JStr "Authentication failed. Please login again."])
    ∧ (ws (svc w) ≠ Some s →
       svc (perform (SockClose s 1008) w) = svc w
       ∧ trace (perform (SockClose s 1008) w) = trace w).
Proof.
  intros w s. cbn [perform].
  split; [by rewrite onclose_1008_timers |]. split.
  - intros Hws.
    destruct (onclose_1008_active s (set_readyState s CLOSED w) Hws)
      as (Hsr & Hnone & _ & Htr).
    done.
  - intros Hne. by rewrite onclose_stale.
Qed.

Lemma close_1008_never_reconnects_witness :
  (ws (svc (after [Connect pageCallbacks; SockOpen 0])) = Some 0
   ∧ shouldReconnect
       (svc (perform (SockClose 0 1008)
               (after [Connect pageCallbacks; SockOpen 0]))) = false
   ∧ trace (perform (SockClose 0 1008)
              (after [Connect pageCallbacks; SockOpen 0]))
     = [Invoke "onConnect" 2 []; Invoke "onDisconnect" 3 [];
        Invoke "onError" 1
          [JStr "Authentication failed. Please login again."]])
  ∧ (ws (svc (after openedThenSuperseded)) ≠ Some 0
     ∧ svc (perform (SockClose 0 1008) (after openedThenSuperseded))
       = svc (after openedThenSuperseded)).
Proof.
  split.
  - split; [reflexivity |].
    destruct (proj1 (proj2 (close_1008_never_reconnects
                              (after [Connect pageCallbacks; SockOpen 0]) 0))
                eq_refl) as (Hsr & _ & Htr).
    split; [exact Hsr | rewrite Htr; reflexivity].
  - assert (Hne : ws (svc (after openedThenSuperseded)) ≠ Some 0)
      by (vm_compute; discriminate).
    split; [exact Hne |].
    exact (proj1 (proj2 (proj2 (close_1008_never_reconnects
                                  (after openedThenSuperseded) 0)) Hne)).
Defined.

(** C3, as stated, fails: five attempts have failed, socket 5 has been
    superseded by socket 6, and socket 5 closes.  The counter is 5 and
    [onError] is registered, yet the close event invokes no callback. *)
Lemma stale_close_at_max_attempts_is_silent :
  run exhaustedThenSuperseded start = Some (after exhaustedThenSuperseded)
  ∧ reconnectAttempts (svc (after exhaustedThenSuperseded)) = 5
  ∧ ws (svc (after exhaustedThenSuperseded)) = Some 6
  ∧ callbacks (svc (after exhaustedThenSuperseded)) !! "onError"
    = Some (HFn 1)
  ∧ enabled (SockClose 5 1006) (after exhaustedThenSuperseded) = true
  ∧ trace (perform (SockClose 5 1006) (after exhaustedThenSuperseded))
    = trace (after exhaustedThenSuperseded).
Proof. repeat apply conj; vm_compute; reflexivity. Qed.

(** C3, amended: in every reachable state [reconnectAttempts] is at most
    5.  When the socket the service holds closes while the counter is 5,
    no timer is scheduled, [shouldReconnect] becomes false and [onError]
    is invoked if registered ("Failed to reconnect ..." or, for code
    1008, "Authentication failed ..."); the close event of a superseded
    socket is ignored.  When the socket the service holds opens and
    [shouldReconnect] is true, the counter is reset to 0 and [onConnect]
    is invoked if registered. *)
Theorem reconnect_attempts_bounded :
  (∀ ch tok w, reachable ch tok w →
               reconnectAttempts (svc w) ≤ maxReconnectAttempts)
  ∧ maxReconnectAttempts = 5
  ∧ (∀ w s code,
        ws (svc w) = Some s →
        reconnectAttempts (svc w) = maxReconnectAttempts →
        timers (perform (SockClose s code) w) = timers w
        ∧ shouldReconnect (svc (perform (SockClose s code) w)) = false
        ∧ trace (perform (SockClose s code) w)
          = trace w ++ invoke (callbacks (svc w)) "onDisconnect" []
                    ++ invoke (callbacks (svc w)) "onError"
                         [JStr (if (code =? 1008)%Z
                                then "Authentication failed. Please login again."
                                else "Failed to reconnect to WebSocket server after multiple attempts")])
  ∧ (∀ w s code, ws (svc w) ≠ Some s →
                 onclose s code w = w)
  ∧ (∀ w s,
        ws (svc w) = Some s → shouldReconnect (svc w) = true →
        reconnectAttempts (svc (perform (SockOpen s) w)) = 0
        ∧ trace (perform (SockOpen s) w)
          = trace w ++ invoke (callbacks (svc w)) "onConnect" []).
Proof.
  split; [exact reachable_attempts |]. split; [reflexivity |].
  split; [| split].
  - intros w s code Hws Hmax. cbn [perform].
    destruct (onclose_exhausted s code (set_readyState s CLOSED w) Hws Hmax)
      as (Ht & Hsr & _ & Htr).
    done.
  - intros w s code. apply onclose_stale.
  - intros w s Hws Hsr. cbn [perform].
    destruct (onopen_success s (set_readyState s OPEN w) Hws Hsr)
      as (Hz & _ & _ & _ & Htr).
    done.
Qed.

Lemma reconnect_attempts_bounded_witness :
  (reachable Account (Some "jwt") (after fiveFailures)
   ∧ reconnectAttempts (svc (after fiveFailures)) ≤ 5)
  ∧ (ws (svc (after fiveFailures)) = Some 5
     ∧ reconnectAttempts (svc (after fiveFailures)) = maxReconnectAttempts
     ∧ timers (perform (SockClose 5 1006) (after fiveFailures)) = []
     ∧ trace (perform (SockClose 5 1006) (after fiveFailures))
       = trace (after fiveFailures)
         ++ [Invoke "onDisconnect" 3 [];
             Invoke "onError" 1
               [JStr "Failed to reconnect to WebSocket server after multiple attempts"]])
  ∧ (ws (svc (after exhaustedThenSuperseded)) ≠ Some 5
     ∧ onclose 5 1006 (after exhaustedThenSuperseded)
       = after exhaustedThenSuperseded)
  ∧ (shouldReconnect (svc (after fiveFailures)) = true
     ∧ reconnectAttempts (svc (perform (SockOpen 5) (after fiveFailures)))
       = 0).
Proof.
  assert (Hreach : reachable Account (Some "jwt") (after fiveFailures)).
  { apply (run_reachable _ _ fiveFailures start);
      [constructor | vm_compute; reflexivity]. }
  split; [| split; [| split]].
  - split; [exact Hreach |].
    exact (proj1 reconnect_attempts_bounded _ _ _ Hreach).
  - destruct (proj1 (proj2 (proj2 reconnect_attempts_bounded))
                (after fiveFailures) 5 1006%Z eq_refl eq_refl)
      as (Ht & _ & Htr).
    split; [reflexivity | split; [reflexivity |]].
    split; [rewrite Ht; reflexivity | rewrite Htr; reflexivity].
  - assert (Hne : ws (svc (after exhaustedThenSuperseded)) ≠ Some 5)
      by (vm_compute; discriminate).
    split; [exact Hne |].
    exact (proj1 (proj2 (proj2 (proj2 reconnect_attempts_bounded)))
             (after exhaustedThenSuperseded) 5 1006%Z Hne).
  - split; [reflexivity |].
    exact (proj1 (proj2 (proj2 (proj2 (proj2 reconnect_attempts_bounded)))
                    (after fiveFailures) 5 eq_refl eq_refl)).
Defined.

(** C4 (the code departs from it): socket 0 is closed by [disconnect()]
    and superseded by socket 1.  Its [error] event is not checked for
    staleness and clears [isConnecting] while socket 1 is connecting, so
    the next [connect()] builds socket 2 next to socket 1: two live
    sockets.  When socket 1 then opens, [onopen] sees that it is not the
    active socket and closes [this.ws], the active socket 2, not socket
    1, which stays open. *)
Theorem stale_open_closes_active_socket :
  run staleOpen start = Some (after staleOpen)
  ∧ svc (after superseded) = mkService (Some 1) 0 pageCallbacks true true
  ∧ sockets (after staleError) = [CLOSED; CONNECTING]
  ∧ svc (after staleError) = mkService (Some 1) 0 pageCallbacks false true
  ∧ sockets (after thirdConnect) = [CLOSED; CONNECTING; CONNECTING]
  ∧ liveSockets (after thirdConnect) = 2
  ∧ ws (svc (after thirdConnect)) = Some 2
  ∧ sockets (after staleOpen) = [CLOSED; OPEN; CLOSING]
  ∧ ws (svc (after staleOpen)) = Some 2.
Proof. repeat apply conj; vm_compute; reflexivity. Qed.

(** The two guards of [connect]: while the connection is open, or while
    the flag [isConnecting] is set, [connect(callbacks2)] builds no socket,
    schedules nothing and invokes no callback: it merges [callbacks2] into
    the registration and changes nothing else, and calling it again
    changes nothing more. *)
Theorem connect_merges_when_open_or_connecting :
  ∀ (w : World) (callbacks2 : Callbacks),
    isConnected w = true ∨ isConnecting (svc w) = true →
    connect callbacks2 w
    = with_svc (set_callbacks (merge (callbacks (svc w)) callbacks2)) w
    ∧ sockets (connect callbacks2 w) = sockets w
    ∧ timers (connect callbacks2 w) = timers w
    ∧ trace (connect callbacks2 w) = trace w
    ∧ ws (svc (connect callbacks2 w)) = ws (svc w)
    ∧ connect callbacks2 (connect callbacks2 w) = connect callbacks2 w.
Proof.
  intros w cbs2 Hguard.
  assert (Hc : ∀ v, (isConnected v = true ∨ isConnecting (svc v) = true) →
                    connect cbs2 v
                    = with_svc (set_callbacks (merge (callbacks (svc v)) cbs2)) v).
  { intros v [Ho | Hi]; unfold connect, updateCallbacks.
    - by rewrite Ho.
    - rewrite Hi. by destruct (isConnected v). }
  rewrite (Hc w Hguard). repeat split.
  rewrite Hc.
  - unfold with_svc, set_callbacks. simpl. by rewrite merge_twice.
  - destruct Hguard as [Ho | Hi]; [left | right]; done.
Qed.

Lemma connect_merges_when_open_or_connecting_witness :
  (isConnected (after [Connect pageCallbacks; SockOpen 0]) = true
   ∧ sockets (connect {[ "onError" := HFn 9 ]}
                (after [Connect pageCallbacks; SockOpen 0])) = [OPEN]
   ∧ trace (connect {[ "onError" := HFn 9 ]}
              (after [Connect pageCallbacks; SockOpen 0]))
     = [Invoke "onConnect" 2 []])
  ∧ (isConnecting (svc (after [Connect pageCallbacks])) = true
     ∧ sockets (connect {[ "onError" := HFn 9 ]}
                  (after [Connect pageCallbacks])) = [CONNECTING]
     ∧ callbacks (svc (connect {[ "onError" := HFn 9 ]}
                         (after [Connect pageCallbacks]))) !! "onError"
       = Some (HFn 9)
     ∧ callbacks (svc (connect {[ "onError" := HFn 9 ]}
                         (after [Connect pageCallbacks]))) !! "onConnect"
       = Some (HFn 2)).
Proof.
  split.
  - split; [reflexivity |].
    destruct (connect_merges_when_open_or_connecting
                (after [Connect pageCallbacks; SockOpen 0])
                {[ "onError" := HFn 9 ]} (or_introl eq_refl))
      as (_ & Hs & _ & Ht & _).
    split; [rewrite Hs; reflexivity | rewrite Ht; reflexivity].
  - split; [reflexivity |].
    destruct (connect_merges_when_open_or_connecting
                (after [Connect pageCallbacks])
                {[ "onError" := HFn 9 ]} (or_intror eq_refl))
      as (Hc & Hs & _).
    split; [rewrite Hs; reflexivity |].
    rewrite Hc. split; vm_compute; reflexivity.
Defined.

(** Past both guards, with a token in storage, [connect] builds a socket
    and holds it, whatever it held before. *)
Lemma connect_builds_socket cbs w :
  isConnected w = false → isConnecting (svc w) = false →
  token_missing (token w) = false → ctorOk w = true →
  sockets (connect cbs w) = sockets w ++ [CONNECTING]
  ∧ ws (svc (connect cbs w)) = Some (length (sockets w))
  ∧ isConnecting (svc (connect cbs w)) = true
  ∧ trace (connect cbs w) = trace w.
Proof.
  intros Hopen Hic Htok Hctor. unfold connect. rewrite Hopen, Hic.
  unfold connect_try, new_WebSocket. simpl. rewrite Htok, Hctor. done.
Qed.

(** C5 (the code departs from it): the guards of [connect] read the flag
    [isConnecting], not the state of the held socket.  Socket 0 is closed
    by [disconnect()] and superseded by socket 1; the [error] event of
    socket 0 is not checked for staleness and clears the flag while
    socket 1 is still connecting ([getIsConnecting()] is true).  In that
    state [connect(callbacks2)] does not stop at merging [callbacks2]: it
    builds socket 2 next to the connecting socket 1 and holds it. *)
Theorem connect_while_connecting_builds_second_socket :
  ∀ callbacks2 : Callbacks,
    run staleError start = Some (after staleError)
    ∧ ws (svc (after staleError)) = Some 1
    ∧ readyState (after staleError) 1 = Some CONNECTING
    ∧ getIsConnecting (after staleError) = true
    ∧ isConnecting (svc (after staleError)) = false
    ∧ liveSockets (after staleError) = 1
    ∧ sockets (connect callbacks2 (after staleError))
      = [CLOSED; CONNECTING; CONNECTING]
    ∧ liveSockets (connect callbacks2 (after staleError)) = 2
    ∧ ws (svc (connect callbacks2 (after staleError))) = Some 2
    ∧ connect callbacks2 (after staleError)
      ≠ updateCallbacks callbacks2 (after staleError).
Proof.
  intros callbacks2.
  assert (Hs : sockets (after staleError) = [CLOSED; CONNECTING])
    by (vm_compute; reflexivity).
  destruct (connect_builds_socket callbacks2 (after staleError))
    as (Hsock & Hws & _); try (vm_compute; reflexivity).
  rewrite Hs in Hsock, Hws.
  do 6 (split; [vm_compute; reflexivity |]).
  split; [exact Hsock |].
  split; [unfold liveSockets; by rewrite Hsock |].
  split; [exact Hws |].
  intros Heq. apply (f_equal sockets) in Heq.
  rewrite Hsock in Heq. cbn [updateCallbacks with_svc sockets] in Heq.
  rewrite Hs in Heq. discriminate Heq.
Qed.

(** C6: [connect()] on an idle connection with no token in storage invokes
    [onError] (if registered) with "No authentication token found. Please
    login again.", builds no socket, schedules nothing and leaves the
    connection idle; its [try] block does not raise.  When building the
    socket raises, the [catch] block turns the exception into [onError]
    ("Failed to create WebSocket connection") and the connection is idle
    again: [connect] itself never raises. *)
Theorem connect_without_token :
  ∀ (w : World) (cbs : Callbacks),
    Idle w →
    (token_missing (token w) = true →
     sockets (connect cbs w) = sockets w
     ∧ timers (connect cbs w) = timers w
     ∧ ws (svc (connect cbs w)) = ws (svc w)
     ∧ Idle (connect cbs w)
     ∧ callbacks (svc (connect cbs w)) = merge (callbacks (svc w)) cbs
     ∧ trace (connect cbs w)
       = trace w ++ invoke (merge (callbacks (svc w)) cbs) "onError"
                      [JStr "No authentication token found. Please login again."]
     ∧ is_Some (connect_try
                  (with_svc (set_isConnecting true)
                     (with_svc (set_shouldReconnect true)
                        (updateCallbacks cbs w)))))
    ∧ (token_missing (token w) = false → ctorOk w = false →
       sockets (connect cbs w) = sockets w
       ∧ ws (svc (connect cbs w)) = ws (svc w)
       ∧ Idle (connect cbs w)
       ∧ trace (connect cbs w)
         = trace w ++ invoke (merge (callbacks (svc w)) cbs) "onError"
                        [JStr "Failed to create WebSocket connection"]).
Proof.
  intros w cbs [Hopen Hic]. unfold Idle, connect.
  rewrite Hopen, Hic. unfold connect_try, new_WebSocket, updateCallbacks.
  simpl. split.
  - intros Htok. rewrite Htok. simpl.
    unfold isConnected in *. simpl. repeat split; eauto.
  - intros Htok Hctor. rewrite Htok, Hctor. simpl.
    unfold isConnected in *. simpl. repeat split; eauto.
Qed.

Lemma connect_without_token_witness :
  (Idle (init Signal None)
   ∧ token_missing (token (init Signal None)) = true
   ∧ sockets (connect pageCallbacks (init Signal None)) = []
   ∧ trace (connect pageCallbacks (init Signal None))
     = [Invoke "onError" 1
          [JStr "No authentication token found. Please login again."]])
  ∧ (Idle (set_ctorOk false start)
     ∧ token_missing (token (set_ctorOk false start)) = false
     ∧ ctorOk (set_ctorOk false start) = false
     ∧ sockets (connect pageCallbacks (set_ctorOk false start)) = []
     ∧ trace (connect pageCallbacks (set_ctorOk false start))
       = [Invoke "onError" 1 [JStr "Failed to create WebSocket connection"]]).
Proof.
  assert (Hidle : Idle (init Signal None)) by (split; reflexivity).
  assert (Hidle' : Idle (set_ctorOk false start)) by (split; reflexivity).
  split.
  - split; [exact Hidle | split; [reflexivity |]].
    destruct (proj1 (connect_without_token (init Signal None) pageCallbacks
                       Hidle) eq_refl) as (Hs & _ & _ & _ & _ & Ht & _).
    split; [rewrite Hs; reflexivity | rewrite Ht; reflexivity].
  - split; [exact Hidle' | split; [reflexivity | split; [reflexivity |]]].
    destruct (proj2 (connect_without_token (set_ctorOk false start)
                       pageCallbacks Hidle') eq_refl eq_refl)
      as (Hs & _ & _ & Ht).
    split; [rewrite Hs; reflexivity | rewrite Ht; reflexivity].
Defined.

End ConnFacts.

(** ** Chart engine *)

Section ChartFacts.
Import Chart Scenario.

(** *** Symbol navigation *)

Lemma nextIndex_last l : nextIndex l (len l - 1) = 0%Z.
Proof. unfold nextIndex. by rewrite Z.eqb_refl. Qed.

Lemma prevIndex_first l : prevIndex l 0 = (len l - 1)%Z.
Proof. done. Qed.

Lemma indexOf_range x l : (-1 ≤ indexOf x l < len l)%Z.
Proof.
  unfold len. induction l as [| y l IH]; simpl; [lia |].
  destruct (String.eqb y x); [lia |].
  destruct (Z.eqb_spec (indexOf x l) (-1)); lia.
Qed.

(** Without a symbol list the Up and Down keys do nothing. *)
Lemma handleKeyDown_no_symbols p key st :
  symbolList p = [] → key = "ArrowUp" ∨ key = "ArrowDown" →
  handleKeyDown p key st = (st, []).
Proof.
  intros Hnil [-> | ->]; unfold handleKeyDown; simpl; by rewrite Hnil.
Qed.

(** Nor do they when the displayed symbol is not in the list. *)
Lemma handleKeyDown_unknown_symbol p key st :
  indexOf (currentSymbol st) (symbolList p) = (-1)%Z →
  key = "ArrowUp" ∨ key = "ArrowDown" →
  handleKeyDown p key st = (st, []).
Proof.
  intros Hidx [-> | ->]; unfold handleKeyDown; simpl; rewrite Hidx;
    by case_bool_decide.
Qed.

(** A swipe does nothing without a symbol list, and changes neither the
    symbol nor the selection when the displayed symbol is not in the list. *)
Lemma handleTouchEnd_no_symbols p onCanvas x y st :
  symbolList p = [] →
  handleTouchEnd p onCanvas x y st = (setTouchStart None None st, []).
Proof. intros Hnil. unfold handleTouchEnd. by rewrite Hnil. Qed.

Lemma handleTouchEnd_unknown_symbol p onCanvas x y st :
  indexOf (currentSymbol st) (symbolList p) = (-1)%Z →
  handleTouchEnd p onCanvas x y st = (setTouchStart None None st, []).
Proof.
  intros Hidx. unfold handleTouchEnd. rewrite Hidx. simpl.
  repeat case_match; done.
Qed.

(** C8 (the code departs from it): on ["A","B","C"] with "C" displayed
    and candle 2 selected, ArrowDown wraps to "A" and reports it through
    [onSymbolChange], but the selection is still candle 2: the keyboard
    path never calls [setSelectedIndex(null)].  The swipe path and the
    symbol input, on the same state, change the symbol and clear the
    selection. *)
Theorem keyboard_navigation_keeps_selection :
  handleKeyDown navProps "ArrowDown" navState
  = (mkState None (Some 2%Z) "A" None None,
     [Invoke "onSymbolChange" 5 [JStr "A"]])
  ∧ handleKeyDown navProps "ArrowUp" navState
    = (mkState None (Some 2%Z) "B" None None,
       [Invoke "onSymbolChange" 5 [JStr "B"]])
  ∧ handleTouchEnd navProps false 200 300
      (handleTouchStart navProps false 100 300 navState)
    = (mkState None None "A" None None,
       [Invoke "onSymbolChange" 5 [JStr "A"]])
  ∧ handleSymbolKeyDown navProps "Enter" "A" navState
    = (mkState None None "A" None None,
       [Invoke "onSymbolChange" 5 [JStr "A"]]).
Proof. repeat apply conj; vm_compute; reflexivity. Qed.

(** *** Price scale *)

Lemma Prim2SF_zero : Prim2SF 0 = S754_zero false.
Proof. reflexivity. Qed.

(** [x - x] is +0 or NaN, so it is falsy, for every number [x]. *)
Lemma sub_diag_falsy (x : float) : num_truthy (x - x) = false.
Proof.
  unfold num_truthy, is_nan. rewrite !FloatAxioms.eqb_spec, sub_spec.
  rewrite Prim2SF_zero. unfold SF64sub.
  destruct (Prim2SF x) as [s | s | | s m e]; simpl.
  - by destruct s.
  - by destruct s.
  - done.
  - by rewrite Z.sub_diag.
Qed.

Lemma SFeqb_finite_inv s1 m1 e1 s2 m2 e2 :
  SFeqb (S754_finite s1 m1 e1) (S754_finite s2 m2 e2) = true →
  s1 = s2 ∧ m1 = m2 ∧ e1 = e2.
Proof.
  unfold SFeqb, SFcompare.
  change (Pos.compare_cont Eq m1 m2) with (Pos.compare m1 m2).
  destruct s1, s2; try discriminate;
    destruct (Z.compare_spec e1 e2); try discriminate;
    destruct (Pos.compare_spec m1 m2); try discriminate;
    intros _; subst; auto.
Qed.

(** The difference of two numbers that are equal ([===]) is +0, -0 or
    NaN, so it is falsy. *)
Lemma sub_eq_falsy (x y : float) :
  (x =? y)%float = true → num_truthy (x - y) = false.
Proof.
  intros Heq. rewrite FloatAxioms.eqb_spec in Heq.
  unfold num_truthy, is_nan. rewrite !FloatAxioms.eqb_spec, sub_spec.
  rewrite Prim2SF_zero. unfold SF64sub.
  destruct (Prim2SF x) as [s1 | s1 | | s1 m1 e1],
           (Prim2SF y) as [s2 | s2 | | s2 m2 e2];
    try discriminate Heq;
    try (by destruct s1, s2); try (by destruct s1); try (by destruct s2).
  apply SFeqb_finite_inv in Heq as (-> & -> & ->). simpl.
  by rewrite Z.sub_diag.
Qed.

Lemma priceRange_flat cs :
  (maxPrice cs =? minPrice cs)%float = true → priceRange cs = 1%float.
Proof.
  intros Heq. unfold priceRange, num_or. by rewrite sub_eq_falsy.
Qed.

Lemma priceRange_truthy cs : num_truthy (priceRange cs) = true.
Proof.
  unfold priceRange, num_or.
  by destruct (num_truthy (maxPrice cs - minPrice cs)) eqn:E.
Qed.

(** C9: for every dataset whose highest high equals its lowest low the
    price range is 1 and the padding 0.1 (and for every dataset the range
    is neither 0 nor NaN).  For the single candle with open = high = low =
    close = 100 the scaled range is a finite number other than 0, the
    candle is drawn at a finite fraction of the chart height, and
    [drawChart] yields finite coordinates on the desktop and on the
    mobile layout. *)
Theorem flat_candle_scale_is_total :
  (∀ cs, (maxPrice cs =? minPrice cs)%float = true →
         priceRange cs = 1%float ∧ pricePadding cs = 0.1%float)
  ∧ (∀ cs, num_truthy (priceRange cs) = true)
  ∧ candlesOf flatData = [flatCandle]
  ∧ maxPrice [flatCandle] = 100%float
  ∧ minPrice [flatCandle] = 100%float
  ∧ priceRange [flatCandle] = 1%float
  ∧ num_truthy (scaledRange [flatCandle]) = true
  ∧ is_finite (scaledRange [flatCandle]) = true
  ∧ is_finite (priceFraction [flatCandle] 100) = true
  ∧ (∃ g, drawChart false desktopHeight (Some flatData) = Some [g]
          ∧ geometryFinite g = true)
  ∧ (∃ g, drawChart true mobileHeight (Some flatData) = Some [g]
          ∧ geometryFinite g = true).
Proof.
  split.
  { intros cs Heq. pose proof (priceRange_flat cs Heq) as Hr.
    split; [exact Hr |]. unfold pricePadding. rewrite Hr. reflexivity. }
  split; [exact priceRange_truthy |].
  repeat apply conj; try (vm_compute; reflexivity).
  - eexists; split; vm_compute; reflexivity.
  - eexists; split; vm_compute; reflexivity.
Qed.

Lemma flat_candle_scale_is_total_witness :
  (maxPrice [flatCandle] =? minPrice [flatCandle])%float = true
  ∧ priceRange [flatCandle] = 1%float
  ∧ pricePadding [flatCandle] = 0.1%float.
Proof.
  split; [vm_compute; reflexivity |].
  apply (proj1 flat_candle_scale_is_total [flatCandle]).
  vm_compute; reflexivity.
Defined.

End ChartFacts.

(** * Further properties of the normalizers *)

Section NormalizerDispatch.
Import Normalizer Scenario.

Lemma invoke_length cbs key args : length (invoke cbs key args) ≤ 1.
Proof. unfold invoke. repeat case_match; simpl; lia. Qed.

Lemma invoke_elem cbs key args k f a :
  Invoke k f a ∈ invoke cbs key args →
  k = key ∧ a = args ∧ cbs !! key = Some (HFn f).
Proof.
  unfold invoke. destruct (cbs !! key) as [[| g] |]; intros Hin;
    try (by apply elem_of_nil in Hin).
  apply list_elem_of_singleton in Hin. by inversion Hin.
Qed.

Lemma invoke_empty key args : invoke ∅ key args = [].
Proof. unfold invoke. by rewrite lookup_empty. Qed.

Lemma truthy_or_else_r a b : truthy b = true → truthy (or_else a b) = true.
Proof. intros Hb. unfold or_else. by destruct (truthy a) eqn:Ha. Qed.

Ltac dispatch_cases :=
  repeat match goal with
         | H : Some _ = Some _ |- _ => inversion H; subst; clear H
         | H : None = Some _ |- _ => discriminate H
         | H : context [match ?x with _ => _ end] |- _ =>
             destruct x eqn:?; simpl in H
         end.

(** Every outcome of the account normalizer: it raises, drops the frame,
    or invokes one callback with one argument. *)
Lemma handleMessage_shape cbs message evs :
  handleMessage cbs message = Some evs →
  evs = [] ∨ ∃ key arg, evs = invoke cbs key [arg]
    ∧ (key = "onBotStatus" ∨ key = "onBalance"
       ∨ (key = "onPositions" ∧ isArray arg = true)
       ∨ (key = "onIncomeHistory" ∧ isArray arg = true)
       ∨ (key = "onSpotOrders" ∧ isArray arg = true)
       ∨ (key = "onError" ∧ truthy arg = true)).
Proof.
  unfold handleMessage.
  destruct (messageTypeOf message) as [messageType |]; simpl; [| done].
  destruct (get "data" message) as [data |]; simpl; [| done].
  intros H.
  repeat match type of H with
         | (if ?c then _ else _) = _ => destruct c eqn:?
         end;
    try (match type of H with
         | context [includes_opt ?n ?k] =>
             destruct (includes_opt n k) as [[] |] eqn:?; simpl in H
         end);
    try (match type of H with
         | context [includes_opt ?n ?k] =>
             destruct (includes_opt n k) as [[] |] eqn:?; simpl in H
         end);
    try (match type of H with
         | context [includes_opt ?n ?k] =>
             destruct (includes_opt n k) as [[] |] eqn:?; simpl in H
         end);
    try discriminate H;
    try (match type of H with
         | context [match get_opt ?n ?d with _ => _ end] =>
             destruct (get_opt n d) eqn:?
         end);
    inversion H; subst; clear H;
    try (by left);
    right; eexists _, _; (split; [reflexivity |]);
    try (by left); try (by right; left).
  all: try (right; right; left; split; [done |];
            by repeat case_match).
  all: try (right; right; right; left; split; [done |];
            by repeat case_match).
  all: try (right; right; right; right; left; split; [done |];
            by repeat case_match).
  all: right; right; right; right; right; split; [done |];
    by apply truthy_or_else_r.
Qed.

(** The same for the signal channel. *)
Lemma handleClientMessage_shape cbs message evs :
  handleClientMessage cbs message = Some evs →
  evs = [] ∨ ∃ key arg, evs = invoke cbs key [arg]
    ∧ ((key = "onScanSignal" ∧ isArray arg = true)
       ∨ (key = "onError" ∧ truthy arg = true)).
Proof.
  unfold handleClientMessage.
  destruct (isArray message) eqn:Harr.
  { intros H. inversion H. right. eexists _, _. split; [done |]. by left. }
  destruct (get "type" message) as [ty |]; simpl; [| done].
  destruct (is_str "scan_signal" ty).
  - destruct (has "data" message) as [hasData |]; simpl; [| done].
    destruct (get "data" message) as [data |]; simpl; [| done].
    destruct (hasData && isArray data) eqn:Hc; intros H; inversion H.
    + right. eexists _, _. split; [done |]. left.
      by apply andb_prop in Hc as [_ ?].
    + by left.
  - destruct (is_str "error" ty).
    + destruct (get "data" message) as [data |]; simpl; [| done].
      intros H. inversion H. right. eexists _, _. split; [done |]. right.
      split; [done |]. by apply truthy_or_else_r.
    + intros H. inversion H. by left.
Qed.

(** X1: a frame never fans out.  Whatever the frame and the registration,
    the account normalizer and the signal normalizer invoke at most one
    callback. *)
Theorem normalizers_invoke_at_most_one_callback :
  ∀ cbs message evs,
    handleMessage cbs message = Some evs
    ∨ handleClientMessage cbs message = Some evs →
    length evs ≤ 1.
Proof.
  intros cbs message evs [H | H].
  - destruct (handleMessage_shape _ _ _ H) as [-> | (k & a & -> & _)];
      [simpl; lia | apply invoke_length].
  - destruct (handleClientMessage_shape _ _ _ H) as [-> | (k & a & -> & _)];
      [simpl; lia | apply invoke_length].
Qed.

Lemma normalizers_invoke_at_most_one_callback_witness :
  handleMessage pageCallbacks positionsObjectFrame
  = Some [Invoke "onPositions" 4 [JArr [btcPosition]]]
  ∧ length [Invoke "onPositions" 4 [JArr [btcPosition]]] ≤ 1.
Proof.
  split; [reflexivity |].
  apply (normalizers_invoke_at_most_one_callback pageCallbacks
           positionsObjectFrame).
  left. reflexivity.
Defined.

(** X2: the list callbacks can rely on their argument.  Whenever
    [onPositions], [onIncomeHistory], [onSpotOrders] or [onScanSignal] is
    invoked, on either channel, it receives exactly one argument and that
    argument is an array, whatever the frame carried. *)
Theorem list_callbacks_receive_arrays :
  ∀ cbs message evs key f args,
    handleMessage cbs message = Some evs
    ∨ handleClientMessage cbs message = Some evs →
    Invoke key f args ∈ evs →
    key = "onPositions" ∨ key = "onIncomeHistory" ∨ key = "onSpotOrders"
    ∨ key = "onScanSignal" →
    ∃ arr, args = [arr] ∧ isArray arr = true.
Proof.
  intros cbs message evs key f args [H | H] Hin Hkey.
  - destruct (handleMessage_shape _ _ _ H) as [-> | (k & a & -> & Hk)];
      [by apply elem_of_nil in Hin |].
    apply invoke_elem in Hin as (-> & -> & _). exists a. split; [done |].
    destruct Hk as [-> | [-> | [[-> ?] | [[-> ?] | [[-> ?] | [-> ?]]]]]];
      try done;
      by destruct Hkey as [? | [? | [? | ?]]].
  - destruct (handleClientMessage_shape _ _ _ H) as [-> | (k & a & -> & Hk)];
      [by apply elem_of_nil in Hin |].
    apply invoke_elem in Hin as (-> & -> & _). exists a. split; [done |].
    destruct Hk as [[-> ?] | [-> ?]]; try done.
    by destruct Hkey as [? | [? | [? | ?]]].
Qed.

Lemma list_callbacks_receive_arrays_witness :
  handleMessage pageCallbacks positionUpdateNullFrame
  = Some [Invoke "onPositions" 4 [JArr [JNull]]]
  ∧ ∃ arr, [JArr [JNull]] = [arr] ∧ isArray arr = true.
Proof.
  split; [reflexivity |].
  apply (list_callbacks_receive_arrays pageCallbacks positionUpdateNullFrame
           [Invoke "onPositions" 4 [JArr [JNull]]] "onPositions" 4).
  - left. reflexivity.
  - apply list_elem_of_singleton. reflexivity.
  - left. reflexivity.
Defined.



(** The frames on which reading the kind raises. *)
Lemma messageTypeOf_None message :
  messageTypeOf message = None ↔ message = JNull ∨ message = JUndefined.
Proof.
  unfold messageTypeOf.
  destruct message; simpl; split; intros H; try done;
    try (by left); try (by right); by destruct H.
Qed.

Lemma get_None k message :
  get k message = None ↔ message = JNull ∨ message = JUndefined.
Proof.
  destruct message; simpl; split; intros H; try done;
    try (by left); try (by right); by destruct H.
Qed.

(** X4: which frames make the account normalizer raise (and so get
    dropped by [onmessage]): exactly [null], and the frames whose kind,
    [event || type], is a number, a boolean or an object.  A frame whose
    kind is a string, an array, [null] or absent never raises. *)
Theorem handleMessage_raises_iff :
  ∀ cbs message,
    handleMessage cbs message = None
    ↔ (message = JNull ∨ message = JUndefined)
      ∨ ∃ kind, messageTypeOf message = Some kind
                ∧ ((∃ n, kind = JNum n) ∨ (∃ b, kind = JBool b)
                   ∨ (∃ props, kind = JObj props)).
Proof.
  intros cbs message. unfold handleMessage.
  destruct (messageTypeOf message) as [kind |] eqn:Hk;
    cbn [mbind option_bind].
  - assert (Hd : ∃ data, get "data" message = Some data).
    { destruct (get "data" message) eqn:Hg; [eauto |].
      apply get_None in Hg. apply messageTypeOf_None in Hg. congruence. }
    destruct Hd as [data ->]. cbn [mbind option_bind].
    destruct kind; cbn [is_str includes_opt orb mbind option_bind];
      split; intros H.
    all: try (right; eexists; split; [reflexivity |]; eauto; fail).
    all: try reflexivity.
    all: try (destruct H as [[? | ?] | (k' & Hk' & [[? ?] | [[? ?] | [? ?]]])];
              subst; cbn in Hk; congruence).
    all: exfalso; revert H; repeat case_match; discriminate.
  - split; [intros _ | done]. left. by apply messageTypeOf_None.
Qed.

(** X5: the two wire shapes of a signal batch are dispatched alike.  An
    envelope of type [scan_signal] whose [data] is an array and the bare
    array itself give the same invocation of [onScanSignal]. *)
Theorem signal_batch_shapes_agree :
  ∀ cbs props items,
    assoc "type" props = JStr "scan_signal" →
    assoc "data" props = JArr items →
    handleClientMessage cbs (JObj props)
    = handleClientMessage cbs (JArr items)
    ∧ handleClientMessage cbs (JArr items)
      = Some (invoke cbs "onScanSignal" [JArr items]).
Proof.
  intros cbs props items Hty Hdata. split; [| reflexivity].
  unfold handleClientMessage. simpl. rewrite Hty, Hdata. simpl.
  assert (Hin : "data" ∈ props.*1).
  { clear Hty. induction props as [| [k v] props IH];
      cbn [assoc fmap list_fmap fst] in *; [discriminate |].
    destruct (String.eqb_spec "data" k) as [<- | Hne];
      [left | right; by apply IH]. }
  by rewrite bool_decide_eq_true_2.
Qed.

Lemma signal_batch_shapes_agree_witness :
  assoc "type" [("type", JStr "scan_signal"); ("data", JArr [JStr "s"])]
  = JStr "scan_signal"
  ∧ handleClientMessage {[ "onScanSignal" := HFn 8 ]}
      (JObj [("type", JStr "scan_signal"); ("data", JArr [JStr "s"])])
    = Some [Invoke "onScanSignal" 8 [JArr [JStr "s"]]].
Proof.
  split; [reflexivity |].
  rewrite (proj1 (signal_batch_shapes_agree {[ "onScanSignal" := HFn 8 ]}
                    [("type", JStr "scan_signal"); ("data", JArr [JStr "s"])]
                    [JStr "s"] eq_refl eq_refl)).
  reflexivity.
Defined.

End NormalizerDispatch.

(** * Further properties of the connection manager *)

Section ConnLifecycle.
Import Conn Outbound Observe Scenario.

Lemma lookup_new_socket (l : list ReadyState) :
  (l ++ [CONNECTING]) !! length l = Some CONNECTING.
Proof. by rewrite lookup_app_r, Nat.sub_diag by lia. Qed.

Lemma send_None_iff message w : send message w = None ↔ isConnected w = false.
Proof.
  unfold send, isConnected. destruct (ws (svc w)) as [s |]; [| done].
  by case_bool_decide.
Qed.

Lemma isConnected_disconnect w : isConnected (disconnect w) = false.
Proof.
  unfold isConnected. destruct (disconnect_state w) as (-> & _). done.
Qed.

(** After [connect] on an idle connection the held socket, if any, is
    connecting. *)
Lemma isConnected_connect_idle cbs w :
  Idle w → isConnected (connect cbs w) = false.
Proof.
  intros [Hopen Hic]. unfold connect. rewrite Hopen, Hic.
  unfold connect_try, new_WebSocket. simpl.
  destruct (token_missing (token w)); simpl; [exact Hopen |].
  destruct (ctorOk w); simpl; [| exact Hopen].
  unfold isConnected, readyState. simpl.
  rewrite lookup_new_socket. by rewrite bool_decide_eq_false_2.
Qed.

(** X6: nothing is queued for sending.  [send], [subscribe] and
    [unsubscribe] hand a frame to the socket only while the held socket is
    open; right after [connect()] on an idle connection (the socket is
    still connecting) and after [disconnect()] the frame is dropped. *)
Theorem send_drops_unless_open :
  ∀ w message channels cbs,
    (is_Some (send message w) ↔ isConnected w = true)
    ∧ send message (disconnect w) = None
    ∧ subscribe channels (disconnect w) = None
    ∧ (Idle w →
       send message (connect cbs w) = None
       ∧ subscribe channels (connect cbs w) = None
       ∧ unsubscribe channels (connect cbs w) = None).
Proof.
  intros w message channels cbs. split; [| split; [| split]].
  - destruct (send message w) eqn:Hs.
    + split; [intros _ | eauto].
      destruct (isConnected w) eqn:Hc; [done |].
      apply (proj2 (send_None_iff message w)) in Hc. congruence.
    + apply (proj1 (send_None_iff message w)) in Hs. rewrite Hs.
      split; [intros [? ?] |]; done.
  - apply send_None_iff, isConnected_disconnect.
  - apply send_None_iff, isConnected_disconnect.
  - intros Hidle. repeat split; apply send_None_iff;
      by apply isConnected_connect_idle.
Qed.

Lemma send_drops_unless_open_witness :
  Idle start
  ∧ subscribe ["positions"] (connect pageCallbacks start) = None
  ∧ subscribe ["positions"] (after [Connect pageCallbacks; SockOpen 0])
    = Some (0, JObj [("type", JStr "subscribe");
                     ("channels", JArr [JStr "positions"])]).
Proof.
  assert (Hidle : Idle start) by (split; reflexivity).
  split; [exact Hidle |]. split; [| vm_compute; reflexivity].
  exact (proj1 (proj2 (proj2 (proj2 (proj2
           (send_drops_unless_open start JNull ["positions"] pageCallbacks)))
           Hidle))).
Defined.

(** X7: [disconnect()] is idempotent and always ends idle: no socket is
    held, nothing is registered, [shouldReconnect] and [isConnecting] are
    false, whatever the state before. *)
Theorem disconnect_idempotent :
  ∀ w,
    disconnect (disconnect w) = disconnect w
    ∧ svc (disconnect w)
      = mkService None (reconnectAttempts (svc w)) ∅ false false
    ∧ isConnected (disconnect w) = false
    ∧ getIsConnecting (disconnect w) = false.
Proof.
  intros w. destruct (disconnect_state w) as (Hsvc & Ht & Htok & Hc & Htr).
  split; [| split; [exact Hsvc | split]].
  - destruct (disconnect w) as [ch sv so ti tok ct tr] eqn:Hd.
    simpl in Hsvc. subst sv. reflexivity.
  - apply isConnected_disconnect.
  - unfold getIsConnecting. by rewrite Hsvc.
Qed.

(** X8: how registrations combine.  In [{...old, ...new}] a property of
    [new] wins and every other property of [old] is kept; a property that
    [new] sets to [undefined] switches the callback off; and two
    [updateCallbacks] calls amount to one call with the merged object. *)
Theorem registrations_merge_by_key :
  ∀ (old new : Callbacks) key args w,
    (merge old new !! key
     = match new !! key with Some h => Some h | None => old !! key end)
    ∧ (new !! key = Some HUndefined → invoke (merge old new) key args = [])
    ∧ (new !! key = None →
       invoke (merge old new) key args = invoke old key args)
    ∧ updateCallbacks new (updateCallbacks old w)
      = updateCallbacks (merge old new) w.
Proof.
  intros old new key args w.
  assert (Hl : merge old new !! key
               = match new !! key with Some h => Some h | None => old !! key end).
  { unfold merge. rewrite lookup_union. by destruct (new !! key), (old !! key). }
  split; [exact Hl |]. split; [| split].
  - intros Hk. unfold invoke. by rewrite Hl, Hk.
  - intros Hk. unfold invoke. by rewrite Hl, Hk.
  - unfold updateCallbacks, with_svc, set_callbacks, merge. simpl.
    by rewrite (assoc_L (∪)).
Qed.

Lemma registrations_merge_by_key_witness :
  ({[ "onError" := HUndefined ]} : Callbacks) !! "onError" = Some HUndefined
  ∧ invoke (merge pageCallbacks {[ "onError" := HUndefined ]}) "onError" []
    = []
  ∧ invoke (merge pageCallbacks {[ "onError" := HUndefined ]}) "onConnect" []
    = [Invoke "onConnect" 2 []].
Proof.
  split; [reflexivity |]. split.
  - apply (proj1 (proj2 (registrations_merge_by_key pageCallbacks
                           {[ "onError" := HUndefined ]} "onError" [] start))).
    vm_compute; reflexivity.
  - rewrite (proj1 (proj2 (proj2 (registrations_merge_by_key pageCallbacks
                                    {[ "onError" := HUndefined ]}
                                    "onConnect" [] start))));
      vm_compute; reflexivity.
Defined.

Ltac life_unfold :=
  unfold connect, connect_try, new_WebSocket, updateCallbacks, onopen,
    onerror, onclose, reconnectTimer, onmessage, disconnect, ws_close,
    set_readyState, setTimeout, call, emit, with_svc, set_sockets,
    set_timers, set_token, set_ctorOk, readyState in *.

Ltac life_cases := life_unfold; repeat (case_match; simpl in * ); simpl in *.

(** *** Timers *)

Lemma connect_timers cbs w : timers (connect cbs w) = timers w.
Proof. life_cases; simplify_eq; done. Qed.

Lemma onclose_timers s code w :
  timers (onclose s code w) = timers w
  ∨ timers (onclose s code w) = timers w ++ [reconnectDelay].
Proof.
  unfold onclose. repeat case_match; simpl; auto.
Qed.

Lemma perform_timers a w :
  timers (perform a w) = timers w
  ∨ timers (perform a w) = timers w ++ [reconnectDelay]
  ∨ timers (perform a w) = tail (timers w).
Proof.
  destruct a; cbn [perform].
  - left. apply connect_timers.
  - left. by destruct (disconnect_state w) as (_ & -> & _).
  - by left.
  - left. life_cases; done.
  - by left.
  - destruct (onclose_timers s code (set_readyState s CLOSED w)) as [-> | ->];
      auto.
  - left. unfold onmessage. by case_match.
  - right. right. unfold reconnectTimer. case_match.
    + by rewrite connect_timers.
    + done.
  - by left.
  - by left.
Qed.

(** X9: the backoff is fixed.  In every reachable state every pending
    reconnect timer was scheduled with the delay 3000 ms, however many
    attempts have failed. *)
Theorem pending_timers_use_fixed_delay :
  ∀ ch tok w,
    reachable ch tok w → Forall (λ delay, delay = 3000%Z) (timers w).
Proof.
  induction 1 as [| a w w' _ IH Hstep]; [constructor |].
  unfold step in Hstep. destruct (enabled a w); [| done].
  inversion Hstep; subst.
  destruct (perform_timers a w) as [-> | [-> | ->]].
  - done.
  - apply Forall_app. split; [done |]. by constructor.
  - destruct (timers w); [done |]. by inversion IH.
Qed.

Lemma pending_timers_use_fixed_delay_witness :
  reachable Account (Some "jwt") (after disconnectedWhileWaiting)
  ∧ Forall (λ delay, delay = 3000%Z) (timers (after disconnectedWhileWaiting))
  ∧ timers (after disconnectedWhileWaiting) = [3000%Z].
Proof.
  assert (Hreach : reachable Account (Some "jwt")
                     (after disconnectedWhileWaiting)).
  { apply (run_reachable _ _ disconnectedWhileWaiting start);
      [constructor | vm_compute; reflexivity]. }
  split; [exact Hreach |]. split; [| vm_compute; reflexivity].
  exact (pending_timers_use_fixed_delay _ _ _ Hreach).
Defined.

(** *** The held socket *)


Lemma length_sockets_ws_close s w :
  length (sockets (ws_close s w)) = length (sockets w).
Proof.
  unfold ws_close, set_readyState. repeat case_match; simpl;
    by rewrite ?length_insert.
Qed.











(** *** A service with nothing registered is silent *)

Lemma call_empty key args w :
  callbacks (svc w) = ∅ → call key args w = w.
Proof.
  intros Hc. unfold call, emit. rewrite Hc, invoke_empty, app_nil_r.
  by destruct w.
Qed.

Lemma normalizers_silent message evs :
  Normalizer.handleMessage ∅ message = Some evs
  ∨ Normalizer.handleClientMessage ∅ message = Some evs →
  evs = [].
Proof.
  intros [H | H].
  - destruct (handleMessage_shape _ _ _ H) as [-> | (k & a & -> & _)];
      [done | apply invoke_empty].
  - destruct (handleClientMessage_shape _ _ _ H) as [-> | (k & a & -> & _)];
      [done | apply invoke_empty].
Qed.

Lemma connect_callbacks cbs w :
  callbacks (svc (connect cbs w)) = merge (callbacks (svc w)) cbs.
Proof.
  unfold connect, updateCallbacks.
  destruct (isConnected w); [done |].
  destruct (isConnecting (svc w)); [done |].
  unfold connect_try, new_WebSocket. cbn [token ctorOk with_svc].
  destruct (token_missing (token w)); [done |].
  by destruct (ctorOk w).
Qed.

Lemma connect_trace cbs w :
  trace (connect cbs w) = trace w
  ∨ ∃ text, trace (connect cbs w)
            = trace w ++ invoke (merge (callbacks (svc w)) cbs) "onError"
                           [JStr text].
Proof.
  unfold connect, updateCallbacks.
  destruct (isConnected w); [by left |].
  destruct (isConnecting (svc w)); [by left |].
  unfold connect_try, new_WebSocket. cbn [token ctorOk with_svc].
  destruct (token_missing (token w)); [right; by eexists |].
  destruct (ctorOk w); [by left | right; by eexists].
Qed.

Lemma connect_quiet w :
  callbacks (svc w) = ∅ →
  trace (connect ∅ w) = trace w ∧ callbacks (svc (connect ∅ w)) = ∅.
Proof.
  intros Hc.
  assert (Hm : merge (callbacks (svc w)) ∅ = ∅)
    by (unfold merge; rewrite Hc; apply (left_id_L ∅ (∪))).
  split.
  - destruct (connect_trace ∅ w) as [-> | [text ->]]; [done |].
    by rewrite Hm, invoke_empty, app_nil_r.
  - by rewrite connect_callbacks.
Qed.

Lemma perform_quiet a w :
  callbacks (svc w) = ∅ → registersNothing a →
  trace (perform a w) = trace w ∧ callbacks (svc (perform a w)) = ∅.
Proof.
  intros Hc Hreg. destruct a; cbn [perform registersNothing] in *.
  - subst. by apply connect_quiet.
  - destruct (disconnect_state w) as (-> & _ & _ & _ & ->). done.
  - subst. unfold updateCallbacks, merge. simpl. by rewrite Hc.
  - unfold onopen. case_match.
    + unfold ws_close, readyState. simpl.
      repeat case_match; done.
    + rewrite call_empty by done. done.
  - unfold onerror. rewrite call_empty by done. done.
  - unfold onclose. case_bool_decide; [done |].
    rewrite (call_empty "onDisconnect") by done.
    repeat case_match; rewrite ?call_empty by done; done.
  - unfold onmessage. rewrite Hc.
    destruct payload as [message |]; [| done]. cbn [mbind option_bind].
    destruct (channel w).
    + destruct (Normalizer.handleMessage ∅ message) as [evs |] eqn:Hp;
        [| done].
      rewrite (normalizers_silent message evs) by auto.
      unfold emit. simpl. by rewrite app_nil_r.
    + destruct (Normalizer.handleClientMessage ∅ message) as [evs |] eqn:Hp;
        [| done].
      rewrite (normalizers_silent message evs) by auto.
      unfold emit. simpl. by rewrite app_nil_r.
  - unfold reconnectTimer. case_match.
    + change (callbacks (svc (set_timers (tail (timers w)) w)))
        with (callbacks (svc w)).
      rewrite Hc. exact (connect_quiet (set_timers (tail (timers w)) w) Hc).
    + rewrite call_empty by done. done.
  - done.
  - done.
Qed.

(** X11: [disconnect()] makes every socket it leaves behind inert.  After
    [disconnect()], whatever then happens (socket events of any socket,
    frames, reconnect timers, token changes, even [connect()] without
    callbacks), no callback is invoked as long as the caller registers
    none. *)
Theorem disconnect_silences_callbacks :
  ∀ acts w w',
    Forall registersNothing acts →
    run acts (disconnect w) = Some w' →
    trace w' = trace w ∧ callbacks (svc w') = ∅.
Proof.
  intros acts w w' Hacts Hrun.
  assert (Hgen : ∀ acts v v',
             Forall registersNothing acts → callbacks (svc v) = ∅ →
             run acts v = Some v' →
             trace v' = trace v ∧ callbacks (svc v') = ∅).
  { clear. induction acts as [| a acts IH]; intros v v' Hall Hc Hrun.
    - simpl in Hrun. by inversion Hrun; subst.
    - inversion Hall as [| ? ? Ha Hrest]; subst.
      simpl in Hrun. unfold step in Hrun.
      destruct (enabled a v); [| done]. simpl in Hrun.
      destruct (perform_quiet a v Hc Ha) as [Ht Hc'].
      destruct (IH _ _ Hrest Hc' Hrun) as [Ht' Hc''].
      split; [congruence | done]. }
  destruct (disconnect_state w) as (Hsvc & _ & _ & _ & Htr).
  destruct (Hgen acts (disconnect w) w' Hacts) as [Ht Hc];
    [by rewrite Hsvc | done |].
  split; [congruence | done].
Qed.

Lemma disconnect_silences_callbacks_witness :
  Forall registersNothing
    [SockError 0; SockClose 0 1006; Connect ∅; SockOpen 1;
     SockMessage 1 (Some positionsObjectFrame)]
  ∧ run [SockError 0; SockClose 0 1006; Connect ∅; SockOpen 1;
         SockMessage 1 (Some positionsObjectFrame)]
      (disconnect (after [Connect pageCallbacks; SockOpen 0]))
    = Some (perform (SockMessage 1 (Some positionsObjectFrame))
              (perform (SockOpen 1)
                 (perform (Connect ∅)
                    (perform (SockClose 0 1006)
                       (perform (SockError 0)
                          (disconnect
                             (after [Connect pageCallbacks; SockOpen 0])))))))
  ∧ trace (perform (SockMessage 1 (Some positionsObjectFrame))
             (perform (SockOpen 1)
                (perform (Connect ∅)
                   (perform (SockClose 0 1006)
                      (perform (SockError 0)
                         (disconnect
                            (after [Connect pageCallbacks; SockOpen 0])))))))
    = [Invoke "onConnect" 2 []].
Proof.
  assert (Hall : Forall registersNothing
                   [SockError 0; SockClose 0 1006; Connect ∅; SockOpen 1;
                    SockMessage 1 (Some positionsObjectFrame)])
    by (repeat constructor).
  split; [exact Hall |].
  assert (Hrun : run [SockError 0; SockClose 0 1006; Connect ∅; SockOpen 1;
                      SockMessage 1 (Some positionsObjectFrame)]
                   (disconnect (after [Connect pageCallbacks; SockOpen 0]))
                 = Some (perform (SockMessage 1 (Some positionsObjectFrame))
                           (perform (SockOpen 1)
                              (perform (Connect ∅)
                                 (perform (SockClose 0 1006)
                                    (perform (SockError 0)
                                       (disconnect
                                          (after [Connect pageCallbacks;
                                                  SockOpen 0]))))))))
    by (vm_compute; reflexivity).
  split; [exact Hrun |].
  rewrite (proj1 (disconnect_silences_callbacks _ _ _ Hall Hrun)).
  vm_compute. reflexivity.
Defined.

(** *** Where sockets come from *)

Lemma sockets_connect cbs w :
  sockets (connect cbs w) = sockets w
  ∨ (sockets (connect cbs w) = sockets w ++ [CONNECTING]
     ∧ token_missing (token w) = false).
Proof.
  unfold connect, updateCallbacks.
  destruct (isConnected w); [by left |].
  destruct (isConnecting (svc w)); [by left |].
  unfold connect_try, new_WebSocket. simpl.
  destruct (token_missing (token w)); simpl; [by left |].
  destruct (ctorOk w); simpl; [by right | by left].
Qed.

(** X12: sockets are built one at a time, only by [connect()] (called
    directly or by a reconnect timer), and never without a token in
    storage; no action forgets a socket. *)
Theorem sockets_are_built_only_with_a_token :
  ∀ a w,
    length (sockets (perform a w)) = length (sockets w)
    ∨ (sockets (perform a w) = sockets w ++ [CONNECTING]
       ∧ token_missing (token w) = false
       ∧ ((∃ cbs, a = Connect cbs) ∨ a = TimerFires)).
Proof.
  intros a w. destruct a; cbn [perform].
  - destruct (sockets_connect cbs w) as [-> | [-> Htok]];
      [by left | right; eauto].
  - left. unfold disconnect. simpl.
    destruct (ws (svc w)) as [s |]; simpl; [| done].
    unfold ws_close, readyState, set_readyState. simpl.
    repeat case_match; simpl; by rewrite ?length_insert.
  - by left.
  - left. unfold onopen. case_match.
    + destruct (ws (svc _)); simpl;
        rewrite ?length_sockets_ws_close; simpl; by rewrite length_insert.
    + simpl. by rewrite length_insert.
  - by left.
  - left. unfold onclose. case_bool_decide; simpl;
      [by rewrite length_insert |].
    repeat case_match; simpl; by rewrite length_insert.
  - left. unfold onmessage. by case_match.
  - unfold reconnectTimer. simpl. case_match.
    + destruct (sockets_connect (callbacks (svc w))
                  (set_timers (tail (timers w)) w)) as [-> | [-> Htok]];
        [by left | right; eauto].
    + by left.
  - by left.
  - by left.
Qed.

(** *** Which callback an action can invoke *)

Lemma connect_emits cbs w :
  ∃ evs, trace (connect cbs w) = trace w ++ evs
         ∧ ∀ k f args, Invoke k f args ∈ evs → k = "onError".
Proof.
  unfold connect, updateCallbacks.
  destruct (isConnected w);
    [exists []; split; [by rewrite app_nil_r | by intros ??? ?%elem_of_nil] |].
  destruct (isConnecting (svc w));
    [exists []; split; [by rewrite app_nil_r | by intros ??? ?%elem_of_nil] |].
  unfold connect_try, new_WebSocket. cbn [token ctorOk with_svc].
  destruct (token_missing (token w)).
  - eexists. split; [reflexivity |].
    intros k f args Hin. by apply invoke_elem in Hin as (-> & _).
  - destruct (ctorOk w); cbn [mbind option_bind].
    + exists []. split; [by rewrite app_nil_r | by intros ??? ?%elem_of_nil].
    + eexists. split; [reflexivity |].
      intros k f args Hin. by apply invoke_elem in Hin as (-> & _).
Qed.

Lemma onclose_emits s code w :
  ∃ evs, trace (onclose s code w) = trace w ++ evs
         ∧ ∀ k f args, Invoke k f args ∈ evs →
             (k = "onDisconnect" ∧ args = [] ∧ ws (svc w) = Some s)
             ∨ k = "onError".
Proof.
  unfold onclose. case_bool_decide as Hstale.
  { exists []. split; [by rewrite app_nil_r | by intros ??? ?%elem_of_nil]. }
  assert (Hws : ws (svc w) = Some s)
    by (destruct (decide (ws (svc w) = Some s)); [done | by destruct Hstale]).
  repeat case_match;
    (eexists; split;
     [unfold call, emit, setTimeout, set_timers, with_svc; simpl;
      rewrite <- ?(assoc_L (++)); try reflexivity;
      by rewrite <- (app_nil_r (trace w ++ _)), <- (assoc_L (++))
     | intros k f args Hin;
       repeat (apply elem_of_app in Hin as [Hin | Hin]);
       try (by apply elem_of_nil in Hin);
       apply invoke_elem in Hin as (-> & -> & _); auto]).
Qed.

Lemma normalizer_keys cbs message evs k f args :
  Normalizer.handleMessage cbs message = Some evs
  ∨ Normalizer.handleClientMessage cbs message = Some evs →
  Invoke k f args ∈ evs →
  k ≠ "onConnect" ∧ k ≠ "onDisconnect".
Proof.
  intros [H | H] Hin.
  - destruct (handleMessage_shape _ _ _ H) as [-> | (key & a & -> & Hk)];
      [by apply elem_of_nil in Hin |].
    apply invoke_elem in Hin as (-> & _).
    destruct Hk as [-> | [-> | [[-> ?] | [[-> ?] | [[-> ?] | [-> ?]]]]]];
      done.
  - destruct (handleClientMessage_shape _ _ _ H)
      as [-> | (key & a & -> & Hk)];
      [by apply elem_of_nil in Hin |].
    apply invoke_elem in Hin as (-> & _).
    by destruct Hk as [[-> ?] | [-> ?]].
Qed.

Lemma perform_emits a w :
  ∃ evs, trace (perform a w) = trace w ++ evs
    ∧ (∀ f args, Invoke "onConnect" f args ∈ evs →
         ∃ s, a = SockOpen s ∧ ws (svc w) = Some s
              ∧ shouldReconnect (svc w) = true ∧ args = [])
    ∧ (∀ f args, Invoke "onDisconnect" f args ∈ evs →
         ∃ s code, a = SockClose s code ∧ ws (svc w) = Some s ∧ args = []).
Proof.
  destruct a; cbn [perform].
  - destruct (connect_emits cbs w) as (evs & Ht & Hk). exists evs.
    split; [done |]. split; intros f args Hin; by apply Hk in Hin.
  - exists []. destruct (disconnect_state w) as (_ & _ & _ & _ & ->).
    split; [by rewrite app_nil_r |].
    split; by intros ?? ?%elem_of_nil.
  - exists []. split; [by rewrite app_nil_r |].
    split; by intros ?? ?%elem_of_nil.
  - unfold onopen.
    destruct (bool_decide _ || negb _) eqn:Hc.
    + exists []. split.
      * rewrite app_nil_r. unfold ws_close, readyState. simpl.
        repeat case_match; done.
      * split; by intros ?? ?%elem_of_nil.
    + apply orb_false_elim in Hc as [Hc1 Hc2].
      apply bool_decide_eq_false in Hc1. apply negb_false_iff in Hc2.
      eexists. split; [reflexivity |]. split; intros f args Hin.
      * apply invoke_elem in Hin as (_ & -> & _). exists s.
        repeat split; [| done].
        simpl in Hc1. by destruct (decide (ws (svc w) = Some s)).
      * by apply invoke_elem in Hin as (? & _).
  - eexists. split; [reflexivity |].
    split; intros f args Hin; by apply invoke_elem in Hin as (? & _).
  - destruct (onclose_emits s code (set_readyState s CLOSED w))
      as (evs & Ht & Hk).
    exists evs. split; [done |]. split; intros f args Hin.
    + by destruct (Hk _ _ _ Hin) as [(? & _) | ?].
    + destruct (Hk _ _ _ Hin) as [(_ & -> & Hws) | ?]; [| done].
      by exists s, code.
  - unfold onmessage.
    destruct payload as [message |]; cbn [mbind option_bind].
    2: { exists []. split; [by rewrite app_nil_r |].
         split; by intros ?? ?%elem_of_nil. }
    destruct (channel w).
    + destruct (Normalizer.handleMessage _ message) as [evs |] eqn:Hm.
      * exists evs. split; [done |].
        split; intros f args Hin;
          by destruct (normalizer_keys _ _ _ _ _ _ (or_introl Hm) Hin).
      * exists []. split; [by rewrite app_nil_r |].
        split; by intros ?? ?%elem_of_nil.
    + destruct (Normalizer.handleClientMessage _ message) as [evs |] eqn:Hm.
      * exists evs. split; [done |].
        split; intros f args Hin;
          by destruct (normalizer_keys _ _ _ _ _ _ (or_intror Hm) Hin).
      * exists []. split; [by rewrite app_nil_r |].
        split; by intros ?? ?%elem_of_nil.
  - unfold reconnectTimer. case_match.
    + destruct (connect_emits (callbacks (svc w))
                  (set_timers (tail (timers w)) w)) as (evs & Ht & Hk).
      exists evs. split; [done |].
      split; intros f args Hin; by apply Hk in Hin.
    + eexists. split; [reflexivity |].
      split; intros f args Hin; by apply invoke_elem in Hin as (? & _).
  - exists []. split; [by rewrite app_nil_r |].
    split; by intros ?? ?%elem_of_nil.
  - exists []. split; [by rewrite app_nil_r |].
    split; by intros ?? ?%elem_of_nil.
Qed.

(** X13: the lifecycle callbacks belong to the held socket.  Every action
    only appends to the trace; [onConnect] is invoked only by the open
    event of the socket the service holds, with [shouldReconnect] true, and
    [onDisconnect] only by the close event of the socket the service
    holds.  No event of a superseded socket, no frame and no timer ever
    reports a connect or a disconnect. *)
Theorem lifecycle_callbacks_come_from_held_socket :
  ∀ a w,
    trace (perform a w) = trace w ++ emitted a w
    ∧ (∀ f args, Invoke "onConnect" f args ∈ emitted a w →
         ∃ s, a = SockOpen s ∧ ws (svc w) = Some s
              ∧ shouldReconnect (svc w) = true ∧ args = [])
    ∧ (∀ f args, Invoke "onDisconnect" f args ∈ emitted a w →
         ∃ s code, a = SockClose s code ∧ ws (svc w) = Some s ∧ args = []).
Proof.
  intros a w. destruct (perform_emits a w) as (evs & Ht & Hc & Hd).
  assert (He : emitted a w = evs)
    by (unfold emitted; rewrite Ht; apply drop_app_length).
  rewrite He. done.
Qed.

Lemma lifecycle_callbacks_come_from_held_socket_witness :
  emitted (SockOpen 0) (after [Connect pageCallbacks])
  = [Invoke "onConnect" 2 []]
  ∧ ∃ s, SockOpen 0 = SockOpen s
         ∧ ws (svc (after [Connect pageCallbacks])) = Some s
         ∧ shouldReconnect (svc (after [Connect pageCallbacks])) = true
         ∧ ([] : list JsValue) = [].
Proof.
  assert (He : emitted (SockOpen 0) (after [Connect pageCallbacks])
               = [Invoke "onConnect" 2 []]) by (vm_compute; reflexivity).
  split; [exact He |].
  apply (proj1 (proj2 (lifecycle_callbacks_come_from_held_socket
                         (SockOpen 0) (after [Connect pageCallbacks]))) 2 []).
  rewrite He. apply list_elem_of_singleton. reflexivity.
Defined.

End ConnLifecycle.

(** * Properties of the WebSocket URL *)

Section UrlFacts.
Import Conn Url.
Import (notations) Stdlib.Strings.Ascii.

Lemma append_cons a s t : String a s +:+ t = String a (s +:+ t).
Proof. reflexivity. Qed.

Lemma append_assoc (s t u : string) : (s +:+ t) +:+ u = s +:+ (t +:+ u).
Proof.
  induction s as [| a s IH]; [reflexivity |].
  by rewrite !append_cons, IH.
Qed.

Lemma strip_trailing_slash_cons c s :
  c ≠ "/"%char →
  strip_trailing_slash (String c s) = String c (strip_trailing_slash s).
Proof.
  intros Hc. destruct s; [| reflexivity]. cbn [strip_trailing_slash].
  by rewrite (proj2 (Ascii.eqb_neq c "/"%char) Hc).
Qed.

(** Exactly one trailing slash is removed. *)
Lemma strip_trailing_slash_app s : strip_trailing_slash (s +:+ "/") = s.
Proof.
  induction s as [| c s IH]; [reflexivity |].
  rewrite append_cons.
  destruct s as [| d s]; [reflexivity |].
  rewrite append_cons in *. cbn [strip_trailing_slash] in *.
  by rewrite IH.
Qed.

(** X14: what the URL of an [http:] or [https:] base is.  The scheme
    becomes [ws:] or [wss:], the rest of the base is kept except for one
    trailing slash, and the endpoint path and the token query of the
    channel follow.  Exactly one slash is removed: a base that does not
    end in a slash (one that [strip_trailing_slash] leaves as it is) and
    that base followed by a slash give the same URL, whereas of two
    trailing slashes the first is kept. *)
Theorem websocket_url_of_http_base :
  ∀ ch rest tok,
    getWebSocketUrl ch ("https:" +:+ rest) tok
    = "wss:" +:+ strip_trailing_slash rest +:+ getWebSocketUrl ch "" tok
    ∧ getWebSocketUrl ch ("http:" +:+ rest) tok
      = "ws:" +:+ strip_trailing_slash rest +:+ getWebSocketUrl ch "" tok
    ∧ getWebSocketUrl ch ("https:" +:+ rest +:+ "/") tok
      = "wss:" +:+ rest +:+ getWebSocketUrl ch "" tok
    ∧ getWebSocketUrl ch ("http:" +:+ rest +:+ "/") tok
      = "ws:" +:+ rest +:+ getWebSocketUrl ch "" tok
    ∧ getWebSocketUrl ch "" None = endpoint ch
    ∧ (strip_trailing_slash rest = rest →
       getWebSocketUrl ch ("https:" +:+ rest +:+ "/") tok
       = getWebSocketUrl ch ("https:" +:+ rest) tok
       ∧ getWebSocketUrl ch ("http:" +:+ rest +:+ "/") tok
         = getWebSocketUrl ch ("http:" +:+ rest) tok)
    ∧ getWebSocketUrl ch ("https:" +:+ rest +:+ "//") tok
      = "wss:" +:+ rest +:+ "/" +:+ getWebSocketUrl ch "" tok
    ∧ getWebSocketUrl ch ("http:" +:+ rest +:+ "//") tok
      = "ws:" +:+ rest +:+ "/" +:+ getWebSocketUrl ch "" tok.
Proof.
  intros ch rest tok.
  assert (Hs : ∀ r, getWebSocketUrl ch ("https:" +:+ r) tok
                    = "wss:" +:+ strip_trailing_slash r
                      +:+ getWebSocketUrl ch "" tok).
  { intros r. unfold getWebSocketUrl.
    change (replace_prefix "https:" "wss:"
              (replace_prefix "http:" "ws:" ("https:" +:+ r)))
      with ("wss:" +:+ r).
    change (strip_trailing_slash
              (replace_prefix "https:" "wss:" (replace_prefix "http:" "ws:" "")))
      with "".
    rewrite !append_cons, !strip_trailing_slash_cons by done.
    change ("" +:+ r) with r.
    change ("" +:+ endpoint ch) with (endpoint ch).
    destruct tok as [t |]; [destruct (String.eqb t "") |];
      rewrite ?append_cons, ?append_assoc; reflexivity. }
  assert (Hp : ∀ r, getWebSocketUrl ch ("http:" +:+ r) tok
                    = "ws:" +:+ strip_trailing_slash r
                      +:+ getWebSocketUrl ch "" tok).
  { intros r. unfold getWebSocketUrl.
    change (replace_prefix "https:" "wss:"
              (replace_prefix "http:" "ws:" ("http:" +:+ r)))
      with ("ws:" +:+ r).
    change (strip_trailing_slash
              (replace_prefix "https:" "wss:" (replace_prefix "http:" "ws:" "")))
      with "".
    rewrite !append_cons, !strip_trailing_slash_cons by done.
    change ("" +:+ r) with r.
    change ("" +:+ endpoint ch) with (endpoint ch).
    destruct tok as [t |]; [destruct (String.eqb t "") |];
      rewrite ?append_cons, ?append_assoc; reflexivity. }
  assert (Hss : rest +:+ "//" = (rest +:+ "/") +:+ "/")
    by (by rewrite append_assoc).
  split; [apply Hs |]. split; [apply Hp |].
  split; [by rewrite Hs, strip_trailing_slash_app |].
  split; [by rewrite Hp, strip_trailing_slash_app |].
  split; [reflexivity |].
  split; [| split].
  - intros Hrest.
    by rewrite !Hs, !Hp, strip_trailing_slash_app, Hrest.
  - by rewrite Hss, Hs, strip_trailing_slash_app, append_assoc.
  - by rewrite Hss, Hp, strip_trailing_slash_app, append_assoc.
Qed.

Lemma websocket_url_of_http_base_witness :
  strip_trailing_slash "//localhost:8001" = "//localhost:8001"
  ∧ getWebSocketUrl Account "http://localhost:8001/" (Some "jwt")
    = getWebSocketUrl Account "http://localhost:8001" (Some "jwt")
  ∧ getWebSocketUrl Account "http://localhost:8001" (Some "jwt")
    = "ws://localhost:8001/api/v1/futures/websocket/account?token=jwt".
Proof.
  split; [reflexivity |].
  destruct (websocket_url_of_http_base Account "//localhost:8001"
              (Some "jwt")) as (_ & _ & _ & _ & _ & Hslash & _).
  split; [exact (proj2 (Hslash eq_refl)) | vm_compute; reflexivity].
Defined.

(** *** The encoded token *)






Lemma decode_encodeByte c rest :
  decodeURIComponent (encodeByte c +:+ rest)
  = String c (decodeURIComponent rest).
Proof. destruct c as [[] [] [] [] [] [] [] []]; reflexivity. Qed.

Lemma decode_encode t : decodeURIComponent (encodeURIComponent t) = t.
Proof.
  induction t as [| c t IH]; [reflexivity |].
  cbn [encodeURIComponent]. by rewrite decode_encodeByte, IH.
Qed.

(** X16: the URL determines the token.  Encoding loses nothing
    ([decodeURIComponent] undoes it), so for one base two different
    non-empty tokens never give the same URL. *)
Theorem websocket_url_determines_token :
  ∀ ch apiUrl t1 t2,
    t1 ≠ "" → t2 ≠ "" →
    getWebSocketUrl ch apiUrl (Some t1) = getWebSocketUrl ch apiUrl (Some t2) →
    decodeURIComponent (encodeURIComponent t1) = t1 ∧ t1 = t2.
Proof.
  intros ch apiUrl t1 t2 H1 H2 Heq. split; [apply decode_encode |].
  unfold getWebSocketUrl in Heq.
  rewrite (proj2 (String.eqb_neq t1 "") H1) in Heq.
  rewrite (proj2 (String.eqb_neq t2 "") H2) in Heq.
  apply String.app_inj, String.app_inj in Heq.
  by rewrite <- (decode_encode t1), Heq, decode_encode.
Qed.

Lemma websocket_url_determines_token_witness :
  "a b" ≠ "" ∧ "a+b" ≠ ""
  ∧ getWebSocketUrl Signal "http://h" (Some "a b")
    ≠ getWebSocketUrl Signal "http://h" (Some "a+b").
Proof.
  split; [discriminate |]. split; [discriminate |].
  intros Heq.
  destruct (websocket_url_determines_token Signal "http://h" "a b" "a+b"
              ltac:(discriminate) ltac:(discriminate) Heq) as [_ Habs].
  discriminate Habs.
Defined.

End UrlFacts.

(** * Further properties of the chart navigation *)

Section ChartNavigation.
Import Chart Scenario.

Lemma at_index_elem l i x : at_index l i = Some x → x ∈ l.
Proof.
  unfold at_index. case_match; [done |]. intros Hl.
  apply list_elem_of_lookup. eauto.
Qed.

Lemma at_index_nat l (i : nat) : at_index l (Z.of_nat i) = l !! i.
Proof.
  unfold at_index. rewrite (proj2 (Z.ltb_ge _ _)) by lia.
  by rewrite Nat2Z.id.
Qed.

Lemma indexOf_lookup l (i : nat) x :
  NoDup l → l !! i = Some x → indexOf x l = Z.of_nat i.
Proof.
  intros Hnd. revert i. induction Hnd as [| y l Hy Hnd IH]; intros i Hi.
  - by rewrite lookup_nil in Hi.
  - destruct i as [| i]; cbn [indexOf].
    + inversion Hi; subst. by rewrite String.eqb_refl.
    + simpl in Hi.
      assert (Hne : y ≠ x).
      { intros ->. apply Hy. apply list_elem_of_lookup. eauto. }
      rewrite (proj2 (String.eqb_neq y x) Hne), (IH i Hi).
      rewrite (proj2 (Z.eqb_neq _ _)) by lia. lia.
Qed.

(** X17: what the Up and Down keys can do.  Either nothing happens, or
    the displayed symbol becomes a non-empty symbol of the caller's list
    and [onSymbolChange], if given, is called once with that symbol. *)
Theorem symbol_keys_select_listed_symbols :
  ∀ p key st,
    key = "ArrowUp" ∨ key = "ArrowDown" →
    handleKeyDown p key st = (st, [])
    ∨ ∃ new, new ∈ symbolList p ∧ new ≠ ""
             ∧ currentSymbol (handleKeyDown p key st).1 = new
             ∧ (handleKeyDown p key st).2
               = optCall "onSymbolChange" (onSymbolChange p) [JStr new].
Proof.
  intros p key st Hkey. unfold handleKeyDown.
  assert (He : String.eqb key "Escape" = false) by (by destruct Hkey as [-> | ->]).
  assert (Hlr : String.eqb key "ArrowLeft" || String.eqb key "ArrowRight"
                = false) by (by destruct Hkey as [-> | ->]).
  rewrite He, Hlr. cbn [andb].
  case_bool_decide; [by left |].
  destruct (indexOf (currentSymbol st) (symbolList p) =? -1)%Z; [by left |].
  destruct (at_index (symbolList p) _) as [new |] eqn:Hat; [| by left].
  destruct (negb _ && negb (String.eqb new "")) eqn:Hc; [| by left].
  right. exists new. apply andb_prop in Hc as [_ Hne].
  split; [by eapply at_index_elem |]. split; [| done].
  apply negb_true_iff in Hne. by apply String.eqb_neq.
Qed.

Lemma symbol_keys_select_listed_symbols_witness :
  handleKeyDown navProps "ArrowUp" navState
  ≠ (navState, [])
  ∧ ∃ new, new ∈ ["A"; "B"; "C"]
           ∧ currentSymbol (handleKeyDown navProps "ArrowUp" navState).1 = new.
Proof.
  split; [vm_compute; discriminate |].
  destruct (symbol_keys_select_listed_symbols navProps "ArrowUp" navState
              (or_introl eq_refl)) as [Hno | (new & Hin & _ & Hcur & _)].
  - vm_compute in Hno. discriminate Hno.
  - exists new. split; [exact Hin | exact Hcur].
Defined.

(** One press of ArrowDown or ArrowUp on a list of distinct, non-empty
    symbols that contains the displayed one. *)
Lemma symbol_key_step p st (i : nat) x key :
  NoDup (symbolList p) → "" ∉ symbolList p →
  2 ≤ length (symbolList p) →
  symbolList p !! i = Some x → currentSymbol st = x →
  key = "ArrowUp" ∨ key = "ArrowDown" →
  ∃ y, symbolList p
       !! ((if String.eqb key "ArrowDown" then i + 1
            else i + length (symbolList p) - 1)
           mod length (symbolList p)) = Some y
       ∧ (handleKeyDown p key st).1 = setCurrentSymbol y st.
Proof.
  intros Hnd Hne Hlen Hi Hcur Hkey.
  pose proof (lookup_lt_Some _ _ _ Hi) as Hlt.
  set (n := length (symbolList p)) in *.
  set (j := (if String.eqb key "ArrowDown" then i + 1 else i + n - 1) mod n).
  assert (Hj : j < n) by (apply Nat.mod_upper_bound; lia).
  destruct (lookup_lt_is_Some_2 (symbolList p) j Hj) as [y Hy].
  exists y. split; [exact Hy |].
  unfold handleKeyDown.
  assert (He : String.eqb key "Escape" = false) by (by destruct Hkey as [-> | ->]).
  assert (Hlr : String.eqb key "ArrowLeft" || String.eqb key "ArrowRight"
                = false) by (by destruct Hkey as [-> | ->]).
  rewrite He, Hlr. cbn [andb].
  rewrite bool_decide_eq_false_2
    by (intros Hnil; rewrite Hnil in Hi; by rewrite lookup_nil in Hi).
  rewrite Hcur, (indexOf_lookup _ _ _ Hnd Hi).
  rewrite (proj2 (Z.eqb_neq _ _)) by lia.
  assert (Hnew : (if String.eqb key "ArrowUp"
                  then prevIndex (symbolList p) (Z.of_nat i)
                  else if String.eqb key "ArrowDown"
                       then nextIndex (symbolList p) (Z.of_nat i)
                       else Z.of_nat i) = Z.of_nat j
                 ∧ j ≠ i).
  { unfold prevIndex, nextIndex, len. fold n. subst j.
    destruct Hkey as [-> | ->]; cbn [String.eqb Ascii.eqb Bool.eqb].
    - destruct (Z.eqb_spec (Z.of_nat i) 0) as [H0 | H0].
      + assert (i = 0) by lia. subst i. simpl.
        rewrite Nat.mod_small by lia. split; lia.
      + replace (i + n - 1) with ((i - 1) + 1 * n) by lia.
        rewrite Nat.Div0.mod_add, Nat.mod_small by lia. split; lia.
    - destruct (Z.eqb_spec (Z.of_nat i) (Z.of_nat n - 1)) as [H0 | H0].
      + assert (i + 1 = n) as -> by lia.
        rewrite Nat.Div0.mod_same. split; lia.
      + rewrite Nat.mod_small by lia. split; lia. }
  destruct Hnew as [-> Hji].
  rewrite at_index_nat, Hy.
  rewrite (proj2 (Z.eqb_neq _ _)) by lia. cbn [negb andb].
  assert (Hyne : y ≠ "").
  { intros ->. apply Hne. apply list_elem_of_lookup. eauto. }
  by rewrite (proj2 (String.eqb_neq y "") Hyne).
Qed.

(** X18: the symbol keys walk a cycle.  On a list of at least two distinct,
    non-empty symbols that contains the displayed one, pressing ArrowDown
    [k] times displays the symbol [k] places further, wrapping around;
    after as many presses as the list is long the original symbol is
    displayed again; and ArrowUp undoes ArrowDown. *)
Theorem symbol_keys_walk_a_cycle :
  ∀ p st (i : nat) x,
    NoDup (symbolList p) → "" ∉ symbolList p →
    2 ≤ length (symbolList p) →
    symbolList p !! i = Some x → currentSymbol st = x →
    (∀ k, symbolList p !! ((i + k) mod length (symbolList p))
          = Some (currentSymbol
                    (Nat.iter k (λ s, (handleKeyDown p "ArrowDown" s).1) st)))
    ∧ currentSymbol
        (Nat.iter (length (symbolList p))
           (λ s, (handleKeyDown p "ArrowDown" s).1) st) = x
    ∧ currentSymbol
        (handleKeyDown p "ArrowUp" (handleKeyDown p "ArrowDown" st).1).1 = x.
Proof.
  intros p st i x Hnd Hne Hlen Hi Hcur.
  pose proof (lookup_lt_Some _ _ _ Hi) as Hlt.
  set (n := length (symbolList p)) in *.
  set (down := λ s, (handleKeyDown p "ArrowDown" s).1).
  assert (Hk : ∀ k, symbolList p !! ((i + k) mod n)
                    = Some (currentSymbol (Nat.iter k down st))).
  { induction k as [| k IH].
    - rewrite Nat.add_0_r, Nat.mod_small by lia. simpl. by rewrite Hcur.
    - change (Nat.iter (S k) down st) with (down (Nat.iter k down st)).
      set (sk := Nat.iter k down st) in *. unfold down.
      destruct (symbol_key_step p sk ((i + k) mod n) _
                  "ArrowDown" Hnd Hne Hlen IH eq_refl (or_intror eq_refl))
        as (y & Hy & ->).
      cbn [String.eqb Ascii.eqb Bool.eqb] in Hy. fold n in Hy.
      rewrite Nat.Div0.add_mod_idemp_l in Hy.
      replace (i + S k) with (i + k + 1) by lia. by rewrite Hy. }
  split; [exact Hk |]. split.
  - specialize (Hk n).
    replace (i + n) with (i + 1 * n) in Hk by lia.
    rewrite Nat.Div0.mod_add, Nat.mod_small in Hk by lia. congruence.
  - destruct (symbol_key_step p st i x "ArrowDown" Hnd Hne Hlen Hi Hcur
                (or_intror eq_refl)) as (y & Hy & ->).
    cbn [String.eqb Ascii.eqb Bool.eqb] in Hy. fold n in Hy.
    destruct (symbol_key_step p (setCurrentSymbol y st) ((i + 1) mod n) y
                "ArrowUp" Hnd Hne Hlen Hy eq_refl (or_introl eq_refl))
      as (z & Hz & ->).
    cbn [String.eqb Ascii.eqb Bool.eqb] in Hz. fold n in Hz.
    assert (Hback : ((i + 1) mod n + n - 1) mod n = i).
    { destruct (decide (i + 1 = n)) as [Heq | Hneq].
      - rewrite Heq, Nat.Div0.mod_same. simpl.
        rewrite Nat.mod_small by lia. lia.
      - rewrite (Nat.mod_small (i + 1)) by lia.
        replace (i + 1 + n - 1) with (i + 1 * n) by lia.
        rewrite Nat.Div0.mod_add, Nat.mod_small by lia. done. }
    rewrite Hback in Hz. simpl. congruence.
Qed.

Lemma symbol_keys_walk_a_cycle_witness :
  NoDup ["A"; "B"; "C"] ∧ ("" ∉ ["A"; "B"; "C"])
  ∧ currentSymbol
      (Nat.iter 3 (λ s, (handleKeyDown navProps "ArrowDown" s).1) navState)
    = "C".
Proof.
  assert (Hnd : NoDup (symbolList navProps))
    by (apply (bool_decide_unpack (NoDup (symbolList navProps)));
        vm_compute; exact I).
  assert (Hne : "" ∉ symbolList navProps)
    by (apply (bool_decide_unpack ("" ∉ symbolList navProps));
        vm_compute; exact I).
  split; [exact Hnd |]. split; [exact Hne |].
  exact (proj1 (proj2 (symbol_keys_walk_a_cycle navProps navState 2 "C"
                         Hnd Hne ltac:(simpl; lia) eq_refl eq_refl))).
Defined.

(** *** Candle selection with the Left and Right keys *)

(** X19: the Left and Right keys keep the selection on a candle.  With a
    non-empty dataset and a selection that is absent or in range, the
    selection afterwards is in range and at most one candle away, the
    symbol is untouched and no callback is called.  Left moves the
    selection one candle down and Right one candle up; at the first candle
    Left does nothing and at the last candle Right does nothing; with no
    selection Left selects the last candle and Right the first; and Right
    undoes Left (and Left undoes Right) away from the ends. *)
Theorem candle_keys_keep_selection_in_range :
  ∀ p key st d,
    data st = Some d → d_open d ≠ [] →
    key = "ArrowLeft" ∨ key = "ArrowRight" →
    (∀ i, selectedIndex st = Some i →
          (0 ≤ i < Z.of_nat (length (d_open d)))%Z) →
    (handleKeyDown p key st).2 = []
    ∧ currentSymbol (handleKeyDown p key st).1 = currentSymbol st
    ∧ (∃ j, selectedIndex (handleKeyDown p key st).1 = Some j
            ∧ (0 ≤ j < Z.of_nat (length (d_open d)))%Z
            ∧ ∀ i, selectedIndex st = Some i → (-1 ≤ j - i ≤ 1)%Z)
    ∧ (∀ i, selectedIndex st = Some i → (0 < i)%Z →
            (handleKeyDown p "ArrowRight"
               (handleKeyDown p "ArrowLeft" st).1).1 = st)
    ∧ (∀ i, selectedIndex st = Some i →
            (i < Z.of_nat (length (d_open d)) - 1)%Z →
            (handleKeyDown p "ArrowLeft"
               (handleKeyDown p "ArrowRight" st).1).1 = st)
    ∧ (selectedIndex st = Some 0%Z →
       handleKeyDown p "ArrowLeft" st = (st, []))
    ∧ (selectedIndex st = Some (Z.of_nat (length (d_open d)) - 1)%Z →
       handleKeyDown p "ArrowRight" st = (st, []))
    ∧ (∀ i, selectedIndex st = Some i → (0 < i)%Z →
            selectedIndex (handleKeyDown p "ArrowLeft" st).1
            = Some (i - 1)%Z)
    ∧ (∀ i, selectedIndex st = Some i →
            (i < Z.of_nat (length (d_open d)) - 1)%Z →
            selectedIndex (handleKeyDown p "ArrowRight" st).1
            = Some (i + 1)%Z)
    ∧ (selectedIndex st = None →
       selectedIndex (handleKeyDown p "ArrowLeft" st).1
       = Some (Z.of_nat (length (d_open d)) - 1)%Z
       ∧ selectedIndex (handleKeyDown p "ArrowRight" st).1 = Some 0%Z).
Proof.
  intros p key st d Hd Hne Hkey Hrange.
  assert (Hlen : (0 < Z.of_nat (length (d_open d)))%Z)
    by (destruct (d_open d); [done | simpl; lia]).
  destruct st as [dat sel cur tx ty]. simpl in Hd, Hrange. subst dat.
  assert (Hstep : ∀ k sel',
             (∀ i, sel' = Some i → (0 ≤ i < Z.of_nat (length (d_open d)))%Z) →
             k = "ArrowLeft" ∨ k = "ArrowRight" →
             handleKeyDown p k (mkState (Some d) sel' cur tx ty)
             = (mkState (Some d)
                  (Some (match sel' with
                         | None => if String.eqb k "ArrowLeft"
                                   then Z.of_nat (length (d_open d)) - 1
                                   else 0
                         | Some i =>
                             if String.eqb k "ArrowLeft"
                             then (if 0 <? i then i - 1 else i)
                             else (if i <? Z.of_nat (length (d_open d)) - 1
                                   then i + 1 else i)
                         end)%Z) cur tx ty, [])).
  { intros k sel' Hr Hk. unfold handleKeyDown. cbn [data selectedIndex].
    assert (He : String.eqb k "Escape" = false) by (by destruct Hk as [-> | ->]).
    assert (Hlr : String.eqb k "ArrowLeft" || String.eqb k "ArrowRight" = true)
      by (by destruct Hk as [-> | ->]).
    rewrite He, Hlr. cbn [andb].
    rewrite bool_decide_eq_false_2 by done.
    destruct Hk as [-> | ->]; cbn [String.eqb Ascii.eqb Bool.eqb];
      destruct sel' as [i |]; try reflexivity;
      unfold setSelectedIndex; cbn; by case_match. }
  rewrite (Hstep key sel Hrange Hkey). cbn [fst snd currentSymbol selectedIndex].
  split; [done |]. split; [done |].
  split; [| split; [| split; [| split; [| split; [| split; [| split]]]]]].
  - eexists. split; [reflexivity |].
    destruct sel as [i |].
    + specialize (Hrange i eq_refl).
      split; [| intros ? [= <-]]; repeat case_match; lia.
    + split; [| done]. case_match; lia.
  - intros i [= ->] Hpos. specialize (Hrange i eq_refl).
    rewrite (Hstep "ArrowLeft" (Some i)) by (auto || (intros ? [= <-]; done)).
    cbn [fst String.eqb Ascii.eqb Bool.eqb].
    rewrite (proj2 (Z.ltb_lt 0 i)) by lia.
    rewrite (Hstep "ArrowRight" (Some (i - 1)%Z))
      by (auto || (intros ? [= <-]; lia)).
    cbn [fst String.eqb Ascii.eqb Bool.eqb].
    rewrite (proj2 (Z.ltb_lt _ _)) by lia.
    do 2 f_equal. lia.
  - intros i [= ->] Hlast. specialize (Hrange i eq_refl).
    rewrite (Hstep "ArrowRight" (Some i)) by (auto || (intros ? [= <-]; done)).
    cbn [fst String.eqb Ascii.eqb Bool.eqb].
    rewrite (proj2 (Z.ltb_lt _ _)) by lia.
    rewrite (Hstep "ArrowLeft" (Some (i + 1)%Z))
      by (auto || (intros ? [= <-]; lia)).
    cbn [fst String.eqb Ascii.eqb Bool.eqb].
    rewrite (proj2 (Z.ltb_lt 0 _)) by lia.
    do 2 f_equal. lia.
  - intros [= ->].
    by rewrite (Hstep "ArrowLeft" (Some 0%Z)) by (auto || (intros ? [= <-]; lia)).
  - intros [= ->].
    rewrite (Hstep "ArrowRight" (Some (Z.of_nat (length (d_open d)) - 1)%Z))
      by (auto || (intros ? [= <-]; lia)).
    cbn [String.eqb Ascii.eqb Bool.eqb]. by rewrite Z.ltb_irrefl.
  - intros i [= ->] Hpos. specialize (Hrange i eq_refl).
    rewrite (Hstep "ArrowLeft" (Some i)) by (auto || (intros ? [= <-]; done)).
    cbn [fst selectedIndex String.eqb Ascii.eqb Bool.eqb].
    by rewrite (proj2 (Z.ltb_lt 0 i)) by lia.
  - intros i [= ->] Hlast. specialize (Hrange i eq_refl).
    rewrite (Hstep "ArrowRight" (Some i)) by (auto || (intros ? [= <-]; done)).
    cbn [fst selectedIndex String.eqb Ascii.eqb Bool.eqb].
    by rewrite (proj2 (Z.ltb_lt _ _)) by lia.
  - intros ->.
    by rewrite (Hstep "ArrowLeft" None), (Hstep "ArrowRight" None)
      by (auto || done).
Qed.

Lemma candle_keys_keep_selection_in_range_witness :
  data (mkState (Some flatData) None "C" None None) = Some flatData
  ∧ d_open flatData ≠ []
  ∧ selectedIndex
      (handleKeyDown navProps "ArrowLeft"
         (mkState (Some flatData) None "C" None None)).1 = Some 0%Z.
Proof.
  split; [reflexivity |]. split; [discriminate |].
  destruct (candle_keys_keep_selection_in_range navProps "ArrowLeft"
              (mkState (Some flatData) None "C" None None) flatData
              eq_refl ltac:(discriminate) (or_introl eq_refl)
              ltac:(intros i Hi; discriminate Hi))
    as (_ & _ & (j & Hj & Hr & _) & _).
  rewrite Hj. f_equal. simpl in Hr. lia.
Defined.

(** *** Swipes *)

(** X20: a swipe does what the matching key does.  After a touch that
    started off the canvas, a horizontal swipe of more than 50 px displays
    the same symbol and makes the same [onSymbolChange] call as ArrowUp
    (finger moved left) or ArrowDown (finger moved right); the touch start
    is forgotten, and if the symbol changed the candle selection is
    cleared. *)
Theorem swipe_navigates_like_keys :
  ∀ p st startX startY endX endY,
    touchStartX st = Some startX → touchStartY st = Some startY →
    (minSwipeDistance <? PrimFloat.abs (startX - endX))%float
    && (PrimFloat.abs (startY - endY) <? PrimFloat.abs (startX - endX))%float
    = true →
    currentSymbol (handleTouchEnd p false endX endY st).1
    = currentSymbol
        (handleKeyDown p (if (0 <? startX - endX)%float
                          then "ArrowUp" else "ArrowDown") st).1
    ∧ (handleTouchEnd p false endX endY st).2
      = (handleKeyDown p (if (0 <? startX - endX)%float
                          then "ArrowUp" else "ArrowDown") st).2
    ∧ touchStartX (handleTouchEnd p false endX endY st).1 = None
    ∧ touchStartY (handleTouchEnd p false endX endY st).1 = None
    ∧ (currentSymbol (handleTouchEnd p false endX endY st).1
       ≠ currentSymbol st →
       selectedIndex (handleTouchEnd p false endX endY st).1 = None).
Proof.
  intros p st sx sy ex ey Hsx Hsy Hswipe.
  unfold handleTouchEnd, handleKeyDown. rewrite Hsx, Hsy.
  destruct (symbolList p) as [| s0 l] eqn:Hl.
  { destruct (0 <? sx - ex)%float; cbn;
      repeat split; intros Hx; by destruct Hx. }
  rewrite Hswipe.
  destruct (0 <? sx - ex)%float eqn:Hdir;
    cbn [String.eqb Ascii.eqb Bool.eqb andb orb];
    rewrite (bool_decide_eq_false_2 (s0 :: l = [])) by done;
    (destruct (indexOf (currentSymbol st) (s0 :: l) =? -1)%Z;
     [cbn; repeat split; intros Hx; by destruct Hx |]);
    (destruct (at_index (s0 :: l) _) as [new |];
     [| cbn; repeat split; intros Hx; by destruct Hx]);
    (destruct (negb _ && negb (String.eqb new ""));
     cbn; repeat split; try done; intros Hx; by destruct Hx).
Qed.

Lemma swipe_navigates_like_keys_witness :
  touchStartX (handleTouchStart navProps false 100 300 navState) = Some 100%float
  ∧ currentSymbol
      (handleTouchEnd navProps false 200 300
         (handleTouchStart navProps false 100 300 navState)).1 = "A".
Proof.
  split; [reflexivity |].
  rewrite (proj1 (swipe_navigates_like_keys navProps
                    (handleTouchStart navProps false 100 300 navState)
                    100 300 200 300 eq_refl eq_refl
                    ltac:(vm_compute; reflexivity))).
  vm_compute. reflexivity.
Defined.

Ltac touch_ignored :=
  cbn; split; [done |]; split; [done |];
  let Hx := fresh "Hx" in intros [Hx | Hx]; by destruct Hx.

(** X21: when a touch navigates.  [handleTouchEnd] always forgets the
    touch start, and it changes the symbol or calls [onSymbolChange] only
    if the touch began and ended off the canvas and moved horizontally by
    more than 50 px and by more than it moved vertically. *)
Theorem touch_navigates_only_on_horizontal_swipe :
  ∀ p onCanvas endX endY st,
    touchStartX (handleTouchEnd p onCanvas endX endY st).1 = None
    ∧ touchStartY (handleTouchEnd p onCanvas endX endY st).1 = None
    ∧ ((handleTouchEnd p onCanvas endX endY st).2 ≠ []
       ∨ currentSymbol (handleTouchEnd p onCanvas endX endY st).1
         ≠ currentSymbol st →
       onCanvas = false
       ∧ ∃ startX startY,
           touchStartX st = Some startX ∧ touchStartY st = Some startY
           ∧ (minSwipeDistance <? PrimFloat.abs (startX - endX))%float = true
           ∧ (PrimFloat.abs (startY - endY)
              <? PrimFloat.abs (startX - endX))%float = true).
Proof.
  intros p onCanvas ex ey st. unfold handleTouchEnd.
  destruct (symbolList p) as [| s0 l]; [by touch_ignored |].
  destruct (touchStartY st) as [sy |]; [| by touch_ignored].
  destruct (touchStartX st) as [sx |]; [| by touch_ignored].
  destruct onCanvas; [by touch_ignored |].
  destruct ((minSwipeDistance <? PrimFloat.abs (sx - ex))%float) eqn:H1;
    [| by touch_ignored].
  destruct ((PrimFloat.abs (sy - ey) <? PrimFloat.abs (sx - ex))%float) eqn:H2;
    [| by touch_ignored].
  cbn [andb].
  repeat case_match; cbn; (split; [done |]); (split; [done |]);
    intros _; eauto 10.
Qed.

End ChartNavigation.

(** ** Facts about the chart layout *)

Section LayoutFacts.
Import Chart Layout.

Lemma ltb_nan_l (x : float) : (nan <? x)%float = false.
Proof. rewrite ltb_spec. reflexivity. Qed.

Lemma ltb_nan_r (x : float) : (x <? nan)%float = false.
Proof.
  rewrite ltb_spec. change (Prim2SF nan) with S754_nan.
  unfold SFltb. by destruct (Prim2SF x).
Qed.

Lemma ltb_irrefl (x : float) : (x <? x)%float = false.
Proof.
  rewrite ltb_spec. unfold SFltb.
  destruct (Prim2SF x) as [[] | [] | | [] m e]; simpl; try done;
    by rewrite Z.compare_refl, Pos.compare_cont_refl.
Qed.

Lemma SFcompare_antisym (x y : spec_float) :
  SFcompare y x = CompOpp <$> SFcompare x y.
Proof.
  destruct x as [[] | [] | | [] m e], y as [[] | [] | | [] m' e'];
    simpl; try done;
    rewrite (Z.compare_antisym e e'); destruct (e ?= e')%Z; simpl; try done;
    by rewrite (ZC4 m m'), ?CompOpp_involutive.
Qed.

Lemma ltb_asym (x y : float) :
  (x <? y)%float = true → (y <? x)%float = false.
Proof.
  rewrite !ltb_spec. unfold SFltb.
  rewrite (SFcompare_antisym (Prim2SF x) (Prim2SF y)).
  by destruct (SFcompare (Prim2SF x) (Prim2SF y)) as [[] |].
Qed.

(** [Math.min(a, b)] exceeds neither argument, and [Math.max(a, b)] is
    below neither. *)
Lemma min2_not_above_l (a b : float) : (a <? min2 a b)%float = false.
Proof.
  unfold min2. destruct (is_nan a || is_nan b); [apply ltb_nan_r |].
  destruct (a <? b)%float eqn:Hab; [apply ltb_irrefl |].
  destruct (b <? a)%float; [done |].
  destruct (get_sign a); [apply ltb_irrefl | done].
Qed.

Lemma min2_not_above_r (a b : float) : (b <? min2 a b)%float = false.
Proof.
  unfold min2. destruct (is_nan a || is_nan b); [apply ltb_nan_r |].
  destruct (a <? b)%float eqn:Hab; [by apply ltb_asym |].
  destruct (b <? a)%float eqn:Hba; [apply ltb_irrefl |].
  destruct (get_sign a); [done | apply ltb_irrefl].
Qed.

Lemma max2_not_below_l (a b : float) : (max2 a b <? a)%float = false.
Proof.
  unfold max2. destruct (is_nan a || is_nan b); [apply ltb_nan_l |].
  destruct (b <? a)%float eqn:Hba; [apply ltb_irrefl |].
  destruct (a <? b)%float; [done |].
  destruct (get_sign a); [done | apply ltb_irrefl].
Qed.

(** X22: a candle body is never thinner than one pixel.  Whatever the
    prices and the canvas height, the comparison [bodyHeight < 1] is false
    for the body height [drawChart] computes (it is at least 1, or NaN). *)
Theorem candle_body_is_at_least_one_pixel :
  ∀ isMobile height cs c,
    (bodyHeight (candleGeometry isMobile height cs c) <? 1)%float = false.
Proof. intros. apply max2_not_below_l. Qed.

(** X23: the canvas size is capped.  For every container width the height
    assigned to the canvas is never above 400 (mobile) or 600 (desktop) and
    never above half the assigned width, and on desktop the assigned width
    is never above 1200 nor above the container width less 32. *)
Theorem canvas_size_is_capped :
  ∀ (isMobile : bool) (rectWidth : float),
    (if isMobile then (400 <? (canvasSize true rectWidth).2)%float
     else (600 <? (canvasSize false rectWidth).2)%float) = false
    ∧ ((canvasSize isMobile rectWidth).1 * 0.5
       <? (canvasSize isMobile rectWidth).2)%float = false
    ∧ (1200 <? (canvasSize false rectWidth).1)%float = false
    ∧ (rectWidth - 32 <? (canvasSize false rectWidth).1)%float = false.
Proof.
  intros isMobile rectWidth. unfold canvasSize. cbn [fst snd].
  split; [destruct isMobile; apply min2_not_above_l |].
  split; [destruct isMobile; apply min2_not_above_r |].
  split; [apply min2_not_above_l | apply min2_not_above_r].
Qed.

(** X24: the candle width is capped.  The width [drawChart] draws a candle
    body with is never above 20 pixels and never above 70% of the slot
    [chartWidth / candles.length]. *)
Theorem optimal_candle_width_is_capped :
  ∀ isMobile width cs,
    (20 <? optimalCandleWidth isMobile width cs)%float = false
    ∧ (candleWidth isMobile width cs * 0.7
       <? optimalCandleWidth isMobile width cs)%float = false.
Proof.
  intros. split; [apply min2_not_above_r | apply min2_not_above_l].
Qed.

End LayoutFacts.

(** ** Facts about the bot control card *)

Section BotStatusCardFacts.
Import BotStatusCard.

(** X25: the Start and Stop buttons exclude each other.  At least one of
    them is disabled; both are disabled exactly while a request is loading,
    and so is the Trigger button.  When the card reads Running the Stop
    button is enabled unless loading, and when it reads Stopped the Start
    button is. *)
Theorem start_and_stop_exclude_each_other :
  ∀ p,
    startDisabled p || stopDisabled p = true
    ∧ startDisabled p && stopDisabled p = isLoading p
    ∧ triggerDisabled p = startDisabled p && stopDisabled p
    ∧ (statusText p = "Running" → stopDisabled p = isLoading p)
    ∧ (statusText p = "Stopped" → startDisabled p = isLoading p).
Proof.
  intros [[run stop] loading connecting received].
  unfold startDisabled, stopDisabled, triggerDisabled, statusText, isRunning.
  cbn [status running stop_flag isLoading isWebSocketConnecting
       hasReceivedStatus].
  destruct run, stop, loading, connecting, received; cbn;
    repeat apply conj; done.
Qed.

End BotStatusCardFacts.

(** ** Facts about the scan signal page *)

Section ScanSignalPageFacts.
Import ScanSignalPage.

Variable toLowerCase : string → string.

Lemma pushSignal_cases (g : Groups) (signal : ScanSignal) :
  pushSignal toLowerCase g signal
  = if inBullish toLowerCase signal
    then mkGroups (bullish g ++ [signal]) (bearish g) (neutral g)
    else if inBearish toLowerCase signal
    then mkGroups (bullish g) (bearish g ++ [signal]) (neutral g)
    else mkGroups (bullish g) (bearish g) (neutral g ++ [signal]).
Proof.
  unfold pushSignal, inBearish, inBullish.
  by destruct (String.eqb (toLowerCase (getTrendLabel signal)) "bullish"
               || String.eqb (toLowerCase (getTrendLabel signal)) "long").
Qed.

Lemma inBullish_not_inBearish (signal : ScanSignal) :
  inBullish toLowerCase signal = true → inBearish toLowerCase signal = false.
Proof. unfold inBearish. by intros ->. Qed.

(** The loop computes three filters of the list. *)
Lemma groupedSignals_filters (l : list ScanSignal) (g : Groups) :
  fold_left (pushSignal toLowerCase) l g
  = mkGroups
      (bullish g ++ filter (λ s, inBullish toLowerCase s = true) l)
      (bearish g ++ filter (λ s, inBearish toLowerCase s = true) l)
      (neutral g
         ++ filter (λ s, inBullish toLowerCase s = false
                         ∧ inBearish toLowerCase s = false) l).
Proof.
  revert g. induction l as [| s l IH]; intros g.
  - destruct g. cbn. by rewrite !app_nil_r.
  - cbn [fold_left]. rewrite IH, pushSignal_cases, !filter_cons.
    destruct (inBullish toLowerCase s) eqn:Hb.
    + rewrite (inBullish_not_inBearish s Hb).
      rewrite decide_True, !decide_False by (done || by intros [? ?]).
      cbn. by rewrite <- app_assoc.
    + destruct (inBearish toLowerCase s).
      * rewrite decide_False, decide_True, decide_False
          by (done || by intros [? ?]).
        cbn. by rewrite <- app_assoc.
      * rewrite !decide_False, decide_True by done.
        cbn. by rewrite <- app_assoc.
Qed.

(** X26: the trend groups partition the filtered signals.  Every signal of
    the list lands in exactly one of the three groups (together they are a
    permutation of the list), and each group keeps the signals in the order
    of the list. *)
Theorem trend_groups_partition_the_signals :
  ∀ filteredSignals,
    bullish (groupedSignals toLowerCase filteredSignals)
      ++ bearish (groupedSignals toLowerCase filteredSignals)
      ++ neutral (groupedSignals toLowerCase filteredSignals)
    ≡ₚ filteredSignals
    ∧ bullish (groupedSignals toLowerCase filteredSignals)
        `sublist_of` filteredSignals
    ∧ bearish (groupedSignals toLowerCase filteredSignals)
        `sublist_of` filteredSignals
    ∧ neutral (groupedSignals toLowerCase filteredSignals)
        `sublist_of` filteredSignals.
Proof.
  intros l. unfold groupedSignals. rewrite groupedSignals_filters.
  cbn [bullish bearish neutral app].
  split; [| repeat split; apply sublist_filter].
  induction l as [| s l IH]; [done |].
  rewrite !filter_cons.
  destruct (inBullish toLowerCase s) eqn:Hb.
  - rewrite (inBullish_not_inBearish s Hb).
    rewrite decide_True, !decide_False by (done || by intros [? ?]).
    cbn. by apply perm_skip.
  - destruct (inBearish toLowerCase s).
    + rewrite decide_False, decide_True, decide_False
        by (done || by intros [? ?]).
      rewrite <- app_comm_cons, <- Permutation_middle. by apply perm_skip.
    + rewrite !decide_False, decide_True by done.
      rewrite app_assoc, <- Permutation_middle, <- app_assoc.
      by apply perm_skip.
Qed.

(** X27: a signal without a usable [trend] field ([null] or the empty
    string) is grouped by its EMA values alone: into the bullish group
    exactly when [ema_fast > ema_slow] and [ema_slow > ema_50], into the
    bearish group exactly when [ema_fast < ema_slow] and
    [ema_slow < ema_50], and else into the neutral group.  The theorem
    takes the lower-casing of the three computed labels as given. *)
Theorem untagged_signal_is_grouped_by_ema :
  ∀ signal,
    toLowerCase "Bullish" = "bullish" →
    toLowerCase "Bearish" = "bearish" →
    toLowerCase "Neutral" = "neutral" →
    trend signal = None ∨ trend signal = Some "" →
    groupedSignals toLowerCase [signal]
    = if (ema_slow signal <? ema_fast signal)%float
         && (ema_50 signal <? ema_slow signal)%float
      then mkGroups [signal] [] []
      else if (ema_fast signal <? ema_slow signal)%float
              && (ema_slow signal <? ema_50 signal)%float
      then mkGroups [] [signal] []
      else mkGroups [] [] [signal].
Proof.
  intros signal Hbull Hbear Hneut Htrend.
  unfold groupedSignals, pushSignal.
  cbn [fold_left bullish bearish neutral app].
  assert (Hlabel : getTrendLabel signal
                   = if (ema_slow signal <? ema_fast signal)%float
                        && (ema_50 signal <? ema_slow signal)%float
                     then "Bullish"
                     else if (ema_fast signal <? ema_slow signal)%float
                             && (ema_slow signal <? ema_50 signal)%float
                     then "Bearish" else "Neutral").
  { unfold getTrendLabel. by destruct Htrend as [-> | ->]. }
  rewrite Hlabel.
  destruct ((ema_slow signal <? ema_fast signal)%float
            && (ema_50 signal <? ema_slow signal)%float);
    [by rewrite Hbull |].
  destruct ((ema_fast signal <? ema_slow signal)%float
            && (ema_slow signal <? ema_50 signal)%float);
    [by rewrite Hbear | by rewrite Hneut].
Qed.

(** X28: what a click on a column header does.  The table is then sorted by
    that column; a click on a new column sorts ascending; a second click on
    the header of the current column undoes the first; and three clicks on
    one header have the effect of one. *)
Theorem header_click_toggles_direction :
  ∀ column s,
    sortColumn (handleSort column s) = column
    ∧ (sortColumn s ≠ column → sortDirection (handleSort column s) = Asc)
    ∧ (sortColumn s = column → handleSort column (handleSort column s) = s)
    ∧ handleSort column (handleSort column (handleSort column s))
      = handleSort column s.
Proof.
  intros column [c d]. unfold handleSort. cbn [sortColumn sortDirection].
  destruct (decide (c = column)) as [-> | Hne].
  - repeat (rewrite bool_decide_eq_true_2 by done;
            cbn [sortColumn sortDirection]).
    by destruct d.
  - rewrite (bool_decide_eq_false_2 (c = column)) by done.
    cbn [sortColumn sortDirection].
    repeat (rewrite bool_decide_eq_true_2 by done;
            cbn [sortColumn sortDirection]).
    done.
Qed.

End ScanSignalPageFacts.

Lemma untagged_signal_is_grouped_by_ema_witness :
  ScanExample.lowerAscii "Bullish" = "bullish"
  ∧ ScanExample.lowerAscii "Bearish" = "bearish"
  ∧ ScanExample.lowerAscii "Neutral" = "neutral"
  ∧ ScanSignalPage.trend ScanExample.risingSignal = None
  ∧ ScanSignalPage.groupedSignals ScanExample.lowerAscii
      [ScanExample.risingSignal]
    = ScanSignalPage.mkGroups [ScanExample.risingSignal] [] [].
Proof.
  do 4 (split; [reflexivity |]).
  exact (untagged_signal_is_grouped_by_ema ScanExample.lowerAscii
           ScanExample.risingSignal eq_refl eq_refl eq_refl
           (or_introl eq_refl)).
Defined.
